(** * Stock Analysis Dashboard ([app.py]): data layer and page

    The script reads two CSV tables with pandas (a price table and a table
    of per-model anomaly flags), normalises them, and on every interaction
    filters both by date window and ticker, extracts the rows flagged by two
    selected models, intersects them and joins everything back to the price
    series; each of its first two tabs then draws a chart from the tables
    or reports that there is no data.  This development embeds that data
    path and what the page shows of it, and proves the properties its
    specification states about them.

    Modelling boundaries.
    - A cell is a dynamically typed [value]; column dtypes are not tracked.
      Finite numbers are exact rationals.
    - Header labels and text cells are strings of code points below 256.
    - The frame handed to the loader is what [pd.read_csv] returned; the
      tokenizer and its type inference are outside the model.
    - The widgets hand the page a [FilterParameters]; which values they can
      hand over is the predicate [offered].  A ticker is text.
    - [pd.to_datetime], [pd.to_numeric] and [sort_values] are library
      routines taken by contract (class [Pandas]); a reference instance is
      given for running examples. *)

From Stdlib Require Import ZArith QArith Ascii.
From stdpp Require Import base tactics option list strings sorting sets.

#[local] Set Warnings "-clear-no-such-hyp".

(** ** Cells, rows, frames *)

Inductive value :=
| VNum (q : Q)      (* finite int64 / float64 *)
| VStr (s : string) (* text *)
| VNaN              (* missing number or text *)
| VTime (t : Z)     (* datetime64[ns]: nanoseconds since the epoch *)
| VNaT.             (* missing timestamp *)

(** A row keeps the index label pandas gave it, so that a row can be
    followed through [dropna], sorting and boolean indexing. *)
Record Row := mkRow { label : nat; cells : list value }.

Record DataFrame := mkDF { columns : list string; rows : list Row }.

Definition cell (j : nat) (r : Row) : value := default VNaN (cells r !! j).

Definition series (j : nat) (df : DataFrame) : list value := cell j <$> rows df.

(** ** Exceptions *)

Inductive exception :=
| KeyError (name : string)
| ValueError
| TypeError
| AttributeError
| MergeError
| FileNotFoundError.

Inductive result (A : Type) :=
| Ok (a : A)
| Raise (e : exception).
Arguments Ok {A} a.
Arguments Raise {A} e.

#[global] Instance result_ret : MRet result := λ A a, Ok a.
#[global] Instance result_bind : MBind result := λ A B f m,
  match m with Ok a => f a | Raise e => Raise e end.

(** ** [str.strip()] on header labels *)

(** [str.isspace] for code points below 256. *)
Definition isspace (c : ascii) : bool :=
  let n := nat_of_ascii c in
  (((9 <=? n) && (n <=? 13)) || ((28 <=? n) && (n <=? 32))
   || (n =? 133) || (n =? 160))%nat.

Fixpoint lstrip (s : string) : string :=
  match s with
  | String c s' => if isspace c then lstrip s' else s
  | EmptyString => EmptyString
  end.

Definition rstrip (s : string) : string := String.rev (lstrip (String.rev s)).

Definition strip (s : string) : string := rstrip (lstrip s).

(** ** Selecting a column by label: [df[name]] *)

Fixpoint positions (name : string) (cols : list string) (i : nat) : list nat :=
  match cols with
  | [] => []
  | c :: cols' =>
      if decide (c = name) then i :: positions name cols' (S i)
      else positions name cols' (S i)
  end.

(** [df[name]] raises [KeyError] when no column carries the label and
    yields a Series when exactly one does.  When the label is repeated it
    yields a DataFrame, on which the Series operation the script applies
    next fails; [e] is the exception of that consumer. *)
Definition getitem (e : exception) (name : string) (df : DataFrame) : result nat :=
  match positions name (columns df) 0 with
  | [] => Raise (KeyError name)
  | [j] => Ok j
  | _ => Raise e
  end.

(** [df[name] = col] for a label already present at position [j]. *)
Definition setitem (j : nat) (col : list value) (df : DataFrame) : DataFrame :=
  mkDF (columns df)
       (zip_with (λ r v, mkRow (label r) (<[j := v]> (cells r))) (rows df) col).

(** ** Missing values and [dropna(subset=...)] *)

Definition notna (v : value) : bool :=
  match v with
  | VNaN | VNaT => false
  | _ => true
  end.

Fixpoint subset_positions (subset : list string) (cols : list string) : result (list nat) :=
  match subset with
  | [] => Ok []
  | name :: subset' =>
      match positions name cols 0 with
      | [] => Raise (KeyError name)
      | js => rest ← subset_positions subset' cols; mret (js ++ rest)
      end
  end.

Definition dropna (subset : list string) (df : DataFrame) : result DataFrame :=
  js ← subset_positions subset (columns df);
  mret (mkDF (columns df)
             (List.filter (λ r, forallb (λ j, notna (cell j r)) js) (rows df))).

(** ** Boolean masks and boolean indexing: [df[mask]] *)

Fixpoint boolean_index (mask : list bool) (rs : list Row) : list Row :=
  match mask, rs with
  | b :: mask', r :: rs' =>
      if b then r :: boolean_index mask' rs' else boolean_index mask' rs'
  | _, _ => []
  end.

Definition mask_and (m1 m2 : list bool) : list bool := zip_with andb m1 m2.

(** ** Library routines taken by contract *)

Definition time_of (v : value) : option Z :=
  match v with VTime t => Some t | _ => None end.

(** Ascending order with missing keys last ([na_position='last']). *)
Definition na_last_le (a b : option Z) : Prop :=
  match a, b with
  | Some x, Some y => (x ≤ y)%Z
  | _, None => True
  | None, Some _ => False
  end.

(** [to_datetime] and [to_numeric] are the [errors='coerce'] variants: they
    map a column to a column of the same length in which a cell that does
    not parse is missing ([None], i.e. NaT or NaN).  They take the whole
    column because pandas may infer the date format from its first
    element.  [sort_values] is any sort by the key, not necessarily
    stable (the default [kind] is quicksort). *)
Class Pandas := {
  to_datetime : list value → list (option Z);
  to_numeric : list value → list (option Q);
  sort_values : (Row → option Z) → list Row → list Row;
  to_datetime_length c : length (to_datetime c) = length c;
  to_numeric_length c : length (to_numeric c) = length c;
  sort_values_perm key rs : sort_values key rs ≡ₚ rs;
  sort_values_sorted key rs :
    Sorted (λ r1 r2, na_last_le (key r1) (key r2)) (sort_values key rs)
}.

Definition of_time (o : option Z) : value :=
  match o with Some t => VTime t | None => VNaT end.

Definition of_num (o : option Q) : value :=
  match o with Some q => VNum q | None => VNaN end.

(** ** Selecting several columns: [df[[name; ...]]] *)

Definition getitems (names : list string) (df : DataFrame) : result DataFrame :=
  js ← subset_positions names (columns df);
  mret (mkDF ((λ j, default EmptyString (columns df !! j)) <$> js)
             ((λ r, mkRow (label r) ((λ j, cell j r) <$> js)) <$> rows df)).

(** ** [pd.merge(left, right, on=..., how='inner')] *)

(** Equality of join keys: missing keys match each other. *)
Definition key_eq (a b : value) : bool :=
  match a, b with
  | VNum x, VNum y => Qeq_bool x y
  | VStr x, VStr y => bool_decide (x = y)
  | VTime x, VTime y => bool_decide (x = y)
  | VNaN, VNaN => true
  | VNaT, VNaT => true
  | _, _ => false
  end.

Fixpoint key_positions (on : list string) (df : DataFrame) : result (list nat) :=
  match on with
  | [] => Ok []
  | k :: on' =>
      j ← getitem ValueError k df;
      js ← key_positions on' df;
      mret (j :: js)
  end.

Definition keys_match (lk rk : list nat) (l r : Row) : bool :=
  forallb (λ ij, key_eq (cell ij.1 l) (cell ij.2 r)) (zip lk rk).

(** Positions and labels of the columns of [cols] that are not join keys. *)
Definition nonkey (on : list string) (cols : list string) : list (nat * string) :=
  List.filter (λ jc, negb (bool_decide (jc.2 ∈ on))) (imap pair cols).

(** [Index.duplicated()]: marks every occurrence of a label but the first. *)
Fixpoint duplicated (seen : list string) (l : list string) : list bool :=
  match l with
  | [] => []
  | x :: l' => bool_decide (x ∈ seen) :: duplicated (x :: seen) l'
  end.

(** A suffix made two labels collide that were distinct before. *)
Definition suffix_dups (old new : list string) : bool :=
  existsb id (zip_with (λ a b, a && negb b) (duplicated [] new) (duplicated [] old)).

Definition suffixed (others : list string) (suffix : string) (c : string) : string :=
  if bool_decide (c ∈ others) then c +:+ suffix else c.

(** Rows of the inner equi-join: the cells of a left row followed by the
    cells a matching right row has outside the keys.  Rows follow the order
    of the left frame, and within one left row the order of the right
    frame. *)
Definition inner_join (lk rk rkeep : list nat) (ls rs : list Row) : list (list value) :=
  l ← ls;
  r ← List.filter (keys_match lk rk l) rs;
  [cells l ++ ((λ j, cell j r) <$> rkeep)].

(** The key columns are taken from the left frame; a label that occurs on
    both sides outside the keys gets [_x] on the left and [_y] on the
    right, and the merge is refused when that makes two labels collide.
    The result carries a fresh index.  (For a left frame without rows
    pandas keeps the key columns of the right frame instead, which moves
    them to the right in a result that has no rows; the labels are laid
    out here as for a left frame with rows.) *)
Definition merge (left right : DataFrame) (on : list string) : result DataFrame :=
  lk ← key_positions on left;
  rk ← key_positions on right;
  let rkeep := nonkey on (columns right) in
  let llabels := suffixed rkeep.*2 "_x" <$> columns left in
  let rlabels := suffixed (columns left) "_y" <$> rkeep.*2 in
  if suffix_dups (columns left) llabels || suffix_dups rkeep.*2 rlabels
  then Raise MergeError
  else mret (mkDF (llabels ++ rlabels)
                  (imap mkRow (inner_join lk rk rkeep.*1 (rows left) (rows right)))).

(** * The script *)

Section script.
Context `{Pandas}.

(** ** Loading (lines 31-41) *)

(** [raw] is the frame [pd.read_csv(DATA_FILENAME)] returned. *)
Definition load_stock_df (raw : DataFrame) : result DataFrame :=
  let df := mkDF (strip <$> columns raw) (rows raw) in
  jd ← getitem ValueError "Date" df;
  let df := setitem jd (of_time <$> to_datetime (series jd df)) df in
  ja ← getitem TypeError "Adj Close" df;
  let df := setitem ja (of_num <$> to_numeric (series ja df)) df in
  df ← dropna ["Date"; "Adj Close"] df;
  jd ← getitem ValueError "Date" df;
  mret (mkDF (columns df) (sort_values (λ r, time_of (cell jd r)) (rows df))).

(** [raw] is the frame [pd.read_csv(FULL_DATA_FILENAME)] returned. *)
Definition load_full_data_df (raw : DataFrame) : result DataFrame :=
  let df := mkDF (strip <$> columns raw) (rows raw) in
  jd ← getitem ValueError "Date" df;
  let df := setitem jd (of_time <$> to_datetime (series jd df)) df in
  df ← dropna ["Date"] df;
  jd ← getitem ValueError "Date" df;
  mret (mkDF (columns df) (sort_values (λ r, time_of (cell jd r)) (rows df))).

End script.

(** ** Widget values (lines 46-54) *)

(** [st.date_input] returns a [datetime.date], kept as days since the
    epoch; the two select boxes return strings. *)
Record FilterParameters := mkParams {
  start_date : Z;
  end_date : Z;
  selected_ticker : string;
  model_1 : string;
  model_2 : string
}.

Definition model_options : list string :=
  ["baseline"; "svm"; "dbscan_pca"; "dbscan_nonpca"; "isolation tree"].

(** [pd.to_datetime(d)] for a date: midnight of that day, in nanoseconds. *)
Definition Timestamp (d : Z) : Z := (d * 86400000000000)%Z.

(** ** Element-wise comparisons *)

Definition ge_timestamp (s : Z) (v : value) : bool :=
  match v with VTime t => bool_decide (s ≤ t)%Z | _ => false end.

Definition le_timestamp (e : Z) (v : value) : bool :=
  match v with VTime t => bool_decide (t ≤ e)%Z | _ => false end.

Definition eq_text (s : string) (v : value) : bool :=
  match v with VStr x => bool_decide (x = s) | _ => false end.

(** [v == 1] *)
Definition eq_one (v : value) : bool :=
  match v with VNum q => Qeq_bool q 1 | _ => false end.

(** ** Filtering (lines 68-70, 91-104) *)

(** [(df['Date'] >= pd.to_datetime(start_date)) &
     (df['Date'] <= pd.to_datetime(end_date)) &
     (df['Ticker'] == selected_ticker)] *)
Definition window_mask (df : DataFrame) (p : FilterParameters) : result (list bool) :=
  j1 ← getitem ValueError "Date" df;
  let ge := ge_timestamp (Timestamp (start_date p)) <$> series j1 df in
  j2 ← getitem ValueError "Date" df;
  let le := le_timestamp (Timestamp (end_date p)) <$> series j2 df in
  jt ← getitem ValueError "Ticker" df;
  let eq := eq_text (selected_ticker p) <$> series jt df in
  mret (mask_and (mask_and ge le) eq).

Definition filter_stock (stock_df : DataFrame) (p : FilterParameters) : result DataFrame :=
  m ← window_mask stock_df p;
  mret (mkDF (columns stock_df) (boolean_index m (rows stock_df))).

Definition filter_anomalies (full_data_df : DataFrame) (p : FilterParameters)
    (model : string) : result DataFrame :=
  m ← window_mask full_data_df p;
  jm ← getitem ValueError model full_data_df;
  let flagged := eq_one <$> series jm full_data_df in
  mret (mkDF (columns full_data_df)
             (boolean_index (mask_and m flagged) (rows full_data_df))).

(** ** Overlap and price joins (lines 107-117) *)

Definition keys : list string := ["Date"; "Ticker"].

Definition with_price (anomalies filtered_stock_df : DataFrame) : result DataFrame :=
  prices ← getitems ["Date"; "Ticker"; "Adj Close"] filtered_stock_df;
  merge anomalies prices keys.

(** The four tables the charts of the second tab are drawn from. *)
Record DerivedView := mkView {
  filtered_stock_df : DataFrame;
  model_1_merged : DataFrame;
  model_2_merged : DataFrame;
  overlapping_merged : DataFrame
}.

Definition anomaly_comparison (stock_df full_data_df : DataFrame)
    (p : FilterParameters) : result DerivedView :=
  filtered ← filter_stock stock_df p;
  model_1_anomalies ← filter_anomalies full_data_df p (model_1 p);
  model_2_anomalies ← filter_anomalies full_data_df p (model_2 p);
  overlapping_anomalies ← merge model_1_anomalies model_2_anomalies keys;
  m1 ← with_price model_1_anomalies filtered;
  m2 ← with_price model_2_anomalies filtered;
  ov ← with_price overlapping_anomalies filtered;
  mret (mkView filtered m1 m2 ov).

(** ** The range guard and the tables of the view
       (lines 57-59, 68-70 and 91-117) *)

(** The data path of the guarded body for given widget values.  What the
    page draws from the tables (lines 72-84 and 120-166) is [page],
    below. *)
Inductive outcome :=
| StError (msg : string)      (* the range guard: [st.error], nothing computed *)
| Uncaught (e : exception)    (* an exception ended the run *)
| Rendered (v : DerivedView).

Definition computeView (stock_df full_data_df : DataFrame)
    (p : FilterParameters) : outcome :=
  if bool_decide (end_date p < start_date p)%Z
  then StError "Error: Start Date must be before End Date."
  else
    match _ ← filter_stock stock_df p; anomaly_comparison stock_df full_data_df p with
    | Ok v => Rendered v
    | Raise e => Uncaught e
    end.

(** ** Date pickers and ticker list (lines 44-48) *)

(** [Series.min()] and [Series.max()] of a datetime column: missing
    timestamps are skipped, and the result is NaT ([None]) when nothing
    is left. *)
Definition Series_min (col : list value) : option Z :=
  foldr (λ v acc, match time_of v with
                  | Some t => Some (from_option (Z.min t) t acc)
                  | None => acc
                  end) None col.

Definition Series_max (col : list value) : option Z :=
  foldr (λ v acc, match time_of v with
                  | Some t => Some (from_option (Z.max t) t acc)
                  | None => acc
                  end) None col.

(** [Series.unique()]: the distinct values in order of first appearance;
    missing values count as one value. *)
Fixpoint unique (col : list value) : list value :=
  match col with
  | [] => []
  | v :: col' => v :: List.filter (λ x, negb (key_eq v x)) (unique col')
  end.

(** [st.date_input(label, value)] shows [value] as its default and raises
    when the default is NaT, which is what the minimum and the maximum of
    a Date column without rows are. *)
Definition date_input (value : option Z) : result Z :=
  match value with
  | Some t => Ok t
  | None => Raise ValueError
  end.

(** What lines 44-48 put into the widgets: the defaults of the two date
    inputs (as timestamps) and the options of the ticker select box. *)
Record Widgets := mkWidgets {
  min_date : Z;
  max_date : Z;
  ticker_list : list value
}.

Definition widgets (stock_df : DataFrame) : result Widgets :=
  j1 ← getitem ValueError "Date" stock_df;
  let lo := Series_min (series j1 stock_df) in
  j2 ← getitem ValueError "Date" stock_df;
  let hi := Series_max (series j2 stock_df) in
  lo ← date_input lo;
  hi ← date_input hi;
  jt ← getitem AttributeError "Ticker" stock_df;
  mret (mkWidgets lo hi (unique (series jt stock_df))).

(** ** Chart or notice (lines 72-84 and 120-166) *)

(** [df.empty]: some axis has length 0. *)
Definition empty (df : DataFrame) : bool :=
  match rows df, columns df with
  | _ :: _, _ :: _ => false
  | _, _ => true
  end.

Definition no_data : string :=
  "No data available for the selected date range and ticker.".

(** The calls that put data or a report on the page: a layered chart,
    given by the tables its layers are drawn from (sizes, colours and
    titles are left out), and [st.error].  Headers, the legend and the
    texts of the third tab are fixed text and are not recorded. *)
Inductive element :=
| st_altair_chart (layers : list DataFrame)
| st_error (msg : string).

Definition stock_prices_tab (filtered : DataFrame) : element :=
  if negb (empty filtered) then st_altair_chart [filtered] else st_error no_data.

Definition anomaly_tab (v : DerivedView) : element :=
  if negb (empty (filtered_stock_df v))
  then st_altair_chart [filtered_stock_df v; model_1_merged v;
                        model_2_merged v; overlapping_merged v]
  else st_error no_data.

(** ** The page (lines 44-166) *)

(** What one run leaves on the page: the recorded calls in order, and the
    exception that ended the run, if one did. *)
Record Page := mkPage { shown : list element; raised : option exception }.

(** [p] holds the values the widgets returned.  The first tab is drawn
    (lines 68-84) before the second tab computes anything (lines 91-117),
    so the price chart is on the page when a lookup of the second tab
    raises. *)
Definition page (stock_df full_data_df : DataFrame) (p : FilterParameters) : Page :=
  match widgets stock_df with
  | Raise e => mkPage [] (Some e)
  | Ok _ =>
      if bool_decide (end_date p < start_date p)%Z
      then mkPage [st_error "Error: Start Date must be before End Date."] None
      else
        match filter_stock stock_df p with
        | Raise e => mkPage [] (Some e)
        | Ok filtered =>
            match anomaly_comparison stock_df full_data_df p with
            | Raise e => mkPage [stock_prices_tab filtered] (Some e)
            | Ok v => mkPage [stock_prices_tab filtered; anomaly_tab v] None
            end
        end
  end.

(** * A reference instance of the library routines

    It accepts ISO dates [YYYY-MM-DD] and plain decimal numbers and sorts
    with a stable merge sort; the contract of [Pandas] asks for less. *)

Module Reference.

Definition digit (c : ascii) : option Z :=
  let n := Z.of_nat (nat_of_ascii c) in
  if ((48 <=? n) && (n <=? 57))%Z then Some (n - 48)%Z else None.

Fixpoint digits (acc : Z) (s : string) : option Z :=
  match s with
  | EmptyString => Some acc
  | String c s' => d ← digit c; digits (10 * acc + d) s'
  end.

Definition is_leap (y : Z) : bool :=
  ((y mod 4 =? 0) && (negb (y mod 100 =? 0) || (y mod 400 =? 0)))%Z.

Definition days_in_month (y m : Z) : Z :=
  (if m =? 2 then (if is_leap y then 29 else 28)
   else if (m =? 4) || (m =? 6) || (m =? 9) || (m =? 11) then 30 else 31)%Z.

(** Days from 1970-01-01 to the given civil date. *)
Definition days_from_civil (y m d : Z) : Z :=
  (let y := if m <=? 2 then y - 1 else y in
   let era := y / 400 in
   let yoe := y - era * 400 in
   let doy := (153 * (if 2 <? m then m - 3 else m + 9) + 2) / 5 + d - 1 in
   let doe := yoe * 365 + yoe / 4 - yoe / 100 + doy in
   era * 146097 + doe - 719468)%Z.

Definition parse_date (s : string) : option Z :=
  if negb (String.length s =? 10)%nat then None else
  let dash i := bool_decide (String.get i s = Some "-"%char) in
  if negb (dash 4%nat && dash 7%nat) then None else
  y ← digits 0 (String.substring 0 4 s);
  m ← digits 0 (String.substring 5 2 s);
  d ← digits 0 (String.substring 8 2 s);
  if ((1 <=? m) && (m <=? 12) && (1 <=? d) && (d <=? days_in_month y m))%Z
  then Some (Timestamp (days_from_civil y m d)) else None.

Definition datetime_cell (v : value) : option Z :=
  match v with
  | VStr s => parse_date s
  | VTime t => Some t
  | _ => None
  end.

(** [int.frac] with at least one digit on each written side. *)
Definition parse_decimal (s : string) : option Q :=
  match String.index 0 "." s with
  | None => if (String.length s =? 0)%nat then None else n ← digits 0 s; Some (inject_Z n)
  | Some i =>
      let int := String.substring 0 i s in
      let frac := String.substring (S i) (String.length s - S i) s in
      if ((String.length int =? 0) || (String.length frac =? 0))%nat then None else
      a ← digits 0 int;
      b ← digits 0 frac;
      Some (Qred (inject_Z a + inject_Z b / inject_Z (10 ^ Z.of_nat (String.length frac))))
  end.

Definition numeric_cell (v : value) : option Q :=
  match v with
  | VNum q => Some q
  | VStr s => parse_decimal s
  | _ => None
  end.

#[global] Instance na_last_le_dec a b : Decision (na_last_le a b).
Proof. destruct a, b; simpl; apply _. Defined.

#[global] Instance na_last_le_total (key : Row → option Z) :
  Total (λ r1 r2, na_last_le (key r1) (key r2)).
Proof.
  intros r1 r2. destruct (key r1), (key r2); simpl; auto. lia.
Qed.

Definition pandas : Pandas := {|
  to_datetime c := datetime_cell <$> c;
  to_numeric c := numeric_cell <$> c;
  sort_values key rs := merge_sort (λ r1 r2, na_last_le (key r1) (key r2)) rs;
  to_datetime_length c := length_fmap datetime_cell c;
  to_numeric_length c := length_fmap numeric_cell c;
  sort_values_perm key rs := merge_sort_Permutation _ rs;
  sort_values_sorted key rs :=
    @Sorted_merge_sort _ _ _ (na_last_le_total key) rs
|}.

End Reference.

(** * Vocabulary of the statements *)

Abbreviation chars := String.list_ascii_of_string.

(** A label that does not end the way a merge suffix does. *)
Definition plain (c : string) : Prop :=
  last (chars c) ≠ Some "x"%char ∧ last (chars c) ≠ Some "y"%char.

(** Every row has one cell per column, as in any frame [read_csv] builds. *)
Definition well_formed (df : DataFrame) : Prop :=
  Forall (λ r, length (cells r) = length (columns df)) (rows df).

(** Exactly one column carries the label. *)
Definition has_column (cols : list string) (name : string) : Prop :=
  ∃ j, positions name cols 0 = [j].

(** The cell of row [r] under the (first) column labelled [name]. *)
Definition get (df : DataFrame) (name : string) (r : Row) : value :=
  match positions name (columns df) 0 with
  | j :: _ => cell j r
  | [] => VNaN
  end.

(** The composite key (Date, Ticker) of a row. *)
Definition row_key (df : DataFrame) (r : Row) : value * value :=
  (get df "Date" r, get df "Ticker" r).

Definition keys_of (df : DataFrame) : list (value * value) :=
  row_key df <$> rows df.

(** Date within [[start_date, end_date]] and ticker equal to the selection. *)
Definition in_window (df : DataFrame) (p : FilterParameters) (r : Row) : Prop :=
  match get df "Date" r, get df "Ticker" r with
  | VTime t, VStr s =>
      (Timestamp (start_date p) ≤ t ≤ Timestamp (end_date p))%Z
      ∧ s = selected_ticker p
  | _, _ => False
  end.

#[global] Instance in_window_dec df p r : Decision (in_window df p r).
Proof. unfold in_window. destruct (get df "Date" r), (get df "Ticker" r); apply _. Defined.

(** The flag of [model] is a number equal to 1. *)
Definition flagged (df : DataFrame) (model : string) (r : Row) : Prop :=
  match get df model r with
  | VNum q => Qeq_bool q 1 = true
  | _ => False
  end.

#[global] Instance flagged_dec df model r : Decision (flagged df model r).
Proof. unfold flagged. destruct (get df model r); apply _. Defined.

(** Ascending by the timestamp in column [j]. *)
Definition date_le (j : nat) (r1 r2 : Row) : Prop :=
  match cell j r1, cell j r2 with
  | VTime a, VTime b => (a ≤ b)%Z
  | _, _ => False
  end.

(** Strings made of whitespace only, and strings with no whitespace at
    either end. *)
Definition blank (s : string) : Prop := lstrip s = EmptyString.
Definition trimmed (s : string) : Prop := lstrip s = s ∧ rstrip s = s.

(** [str.lower] on code points below 128. *)
Definition lower_char (c : ascii) : ascii :=
  let n := nat_of_ascii c in
  if ((65 <=? n) && (n <=? 90))%nat then ascii_of_nat (n + 32) else c.

Fixpoint lower (s : string) : string :=
  match s with
  | EmptyString => EmptyString
  | String c s' => String (lower_char c) (lower s')
  end.

(** A header label as written in the file: the name with whitespace around. *)
Definition padded (name written : string) : Prop :=
  ∃ l r, blank l ∧ blank r ∧ trimmed name ∧ written = l +:+ name +:+ r.

(** What the loaders keep of a raw row, given the outcome of parsing its
    Date cell (and, for prices, its Adj Close cell): nothing when a parse
    failed, else the row with the parsed values in place. *)
Definition parsed_stock_row (jd ja : nat) (x : Row * (option Z * option Q)) : option Row :=
  t ← x.2.1; q ← x.2.2;
  Some (mkRow (label x.1) (<[ja := VNum q]> (<[jd := VTime t]> (cells x.1)))).

Definition parsed_full_row (jd : nat) (x : Row * option Z) : option Row :=
  t ← x.2; Some (mkRow (label x.1) (<[jd := VTime t]> (cells x.1))).

(** The raw rows paired with the outcome of parsing their Date cell (and
    Adj Close cell); [jd] and [ja] are the positions of the two columns. *)
Section parses.
Context `{Pandas}.

Definition stock_parses (raw : DataFrame) (jd ja : nat) :
    list (Row * (option Z * option Q)) :=
  zip (rows raw) (zip (to_datetime (cell jd <$> rows raw))
                      (to_numeric (cell ja <$> rows raw))).

Definition full_parses (raw : DataFrame) (jd : nat) : list (Row * option Z) :=
  zip (rows raw) (to_datetime (cell jd <$> rows raw)).

End parses.

(** What holds of a frame once it is loaded. *)
Definition dated (jd : nat) (df : DataFrame) : Prop :=
  positions "Date" (columns df) 0 = [jd]
  ∧ Forall (λ r, ∃ t, cell jd r = VTime t) (rows df)
  ∧ StronglySorted (date_le jd) (rows df)
  ∧ well_formed df.

Definition priced (ja : nat) (df : DataFrame) : Prop :=
  positions "Adj Close" (columns df) 0 = [ja]
  ∧ Forall (λ r, ∃ q, cell ja r = VNum q) (rows df).

(** Date and Ticker are present once each, and every row carries a
    timestamp and a text ticker there. *)
Definition keyed (jd jt : nat) (df : DataFrame) : Prop :=
  positions "Date" (columns df) 0 = [jd]
  ∧ positions "Ticker" (columns df) 0 = [jt]
  ∧ Forall (λ r, ∃ t s, cell jd r = VTime t ∧ cell jt r = VStr s) (rows df).

(** The key sequence of an inner join, from the key sequences of its two
    sides: each left key, once per right key equal to it. *)
Definition same_key (k k' : value * value) : bool :=
  key_eq k.1 k'.1 && key_eq k.2 k'.2.

Definition joined_keys (ks ks' : list (value * value)) : list (value * value) :=
  k ← ks; _ ← List.filter (same_key k) ks'; [k].

Definition cells_key (jd jt : nat) (cs : list value) : value * value :=
  (default VNaN (cs !! jd), default VNaN (cs !! jt)).

(** A key made of a timestamp and a text ticker. *)
Definition proper_key (k : value * value) : Prop :=
  ∃ t s, k = (VTime t, VStr s).

(** The labels of [pd.merge(L, R, on=['Date', 'Ticker'])]. *)
Definition merged_columns (L R : DataFrame) : list string :=
  (suffixed (nonkey keys (columns R)).*2 "_x" <$> columns L)
  ++ (suffixed (columns L) "_y" <$> (nonkey keys (columns R)).*2).

(** [M] is an anomaly table joined with the filtered prices [fs]: its
    last column is the attached price column, and every row of it carries
    there the (present) Adj Close of a filtered price row with its key. *)
Definition price_attached (fs M : DataFrame) : Prop :=
  well_formed M
  ∧ (last (columns M) = Some "Adj Close" ∨ last (columns M) = Some "Adj Close_y")
  ∧ ∀ m, m ∈ rows M →
      ∃ pr q, pr ∈ rows fs ∧ row_key fs pr = row_key M m
              ∧ get fs "Adj Close" pr = VNum q
              ∧ last (cells m) = Some (VNum q).

(** The columns the page reads, other than the two model columns, are
    there once each, and the anomaly table does not hold both an
    [Adj Close] and an [Adj Close_x] column (the price join would be
    refused). *)
Definition base_columns (stock_df full_data_df : DataFrame) : Prop :=
  has_column (columns stock_df) "Date"
  ∧ has_column (columns stock_df) "Ticker"
  ∧ has_column (columns stock_df) "Adj Close"
  ∧ has_column (columns full_data_df) "Date"
  ∧ has_column (columns full_data_df) "Ticker"
  ∧ ¬ ("Adj Close" ∈ columns full_data_df ∧ "Adj Close_x" ∈ columns full_data_df).

(** The widget values a user can hand to the page: the ticker is an
    option of its select box, and both models are picked from
    [model_options] (lines 49, 53 and 54).  The two dates are not
    bounded: a date input lets the user move away from its default. *)
Definition offered (w : Widgets) (p : FilterParameters) : Prop :=
  VStr (selected_ticker p) ∈ ticker_list w
  ∧ model_1 p ∈ model_options
  ∧ model_2 p ∈ model_options.

(** * Example tables

    A small price file and a small flag file, as [read_csv] would return
    them, and what the reference instance loads from them. *)

Module Example.

Definition raw_prices : DataFrame :=
  mkDF [" Date"; "Ticker "; " Adj Close "]
    [mkRow 0 [VStr "2024-01-02"; VStr "ABC"; VNum 11];
     mkRow 1 [VStr "not-a-date"; VStr "ABC"; VNum 12];
     mkRow 2 [VStr "2024-01-01"; VStr "ABC"; VStr "10.0"];
     mkRow 3 [VStr "2024-01-01"; VStr "XYZ"; VStr "n/a"];
     mkRow 4 [VStr "2024-01-03"; VStr "ABC"; VNum 12]].

Definition raw_flags : DataFrame :=
  mkDF ["Date"; "Ticker"; "baseline"; "svm"; "foo"]
    [mkRow 0 [VStr "2024-01-02"; VStr "ABC"; VNum 1; VNum 0; VNum 1];
     mkRow 1 [VStr "2024-01-01"; VStr "ABC"; VNum 0; VNaN; VStr "1"];
     mkRow 2 [VStr "01/02/2024"; VStr "ABC"; VNum 1; VNum 1; VNum 1];
     mkRow 3 [VStr "2024-01-03"; VStr "ABC"; VNum 1; VNum 1; VNum 0]].

(** The price file with its first label in lower case. *)
Definition raw_prices_lower : DataFrame :=
  mkDF ["date"; "Ticker"; "Adj Close"] (rows raw_prices).

(** The price file with its second label in lower case. *)
Definition raw_prices_ticker : DataFrame :=
  mkDF ["Date"; "ticker"; "Adj Close"] (rows raw_prices).

Definition loaded (r : result DataFrame) : DataFrame :=
  match r with Ok df => df | Raise _ => mkDF [] [] end.

Definition stock_df : DataFrame :=
  Eval vm_compute in loaded (@load_stock_df Reference.pandas raw_prices).

Definition full_data_df : DataFrame :=
  Eval vm_compute in loaded (@load_full_data_df Reference.pandas raw_flags).

Definition day (y m d : Z) : Z := Reference.days_from_civil y m d.

Definition params : FilterParameters :=
  mkParams (day 2024 1 1) (day 2024 1 2) "ABC" "baseline" "svm".

Definition params_same_model : FilterParameters :=
  mkParams (day 2024 1 1) (day 2024 1 3) "ABC" "baseline" "baseline".

Definition params_reversed : FilterParameters :=
  mkParams (day 2024 1 2) (day 2024 1 1) "ABC" "baseline" "svm".

Definition params_one_day : FilterParameters :=
  mkParams (day 2024 1 2) (day 2024 1 2) "ABC" "baseline" "svm".

(** A price file in which ticker XYZ has a price on the last day only,
    and the first two days with XYZ selected. *)
Definition raw_prices_two : DataFrame :=
  mkDF ["Date"; "Ticker"; "Adj Close"]
    [mkRow 0 [VStr "2024-01-01"; VStr "ABC"; VNum 10];
     mkRow 1 [VStr "2024-01-02"; VStr "ABC"; VNum 11];
     mkRow 2 [VStr "2024-01-03"; VStr "XYZ"; VNum 7]].

Definition stock_df_two : DataFrame :=
  Eval vm_compute in loaded (@load_stock_df Reference.pandas raw_prices_two).

Definition params_gap : FilterParameters :=
  mkParams (day 2024 1 1) (day 2024 1 2) "XYZ" "baseline" "svm".



End Example.

(** * Proofs *)

(** ** The error monad *)

Lemma bind_Ok {A B} (f : A → result B) (m : result A) (b : B) :
  m ≫= f = Ok b ↔ ∃ a, m = Ok a ∧ f a = Ok b.
Proof.
  destruct m as [a|e]; simpl; split.
  - eauto.
  - by intros (? & [= <-] & ?).
  - done.
  - by intros (? & ? & ?).
Qed.

(** ** Column positions *)

Lemma positions_elem name cols i j :
  j ∈ positions name cols i ↔ i ≤ j ∧ cols !! (j - i) = Some name.
Proof.
  revert i. induction cols as [|c cols IH]; intros i; simpl.
  - rewrite elem_of_nil. naive_solver.
  - destruct (decide (c = name)) as [->|Hne].
    + rewrite elem_of_cons, IH. split.
      * intros [->|[Hle Hj]].
        -- split; [lia|]. by replace (i - i) with 0 by lia.
        -- split; [lia|]. by replace (j - i) with (S (j - S i)) by lia.
      * intros [Hle Hj]. destruct (decide (j = i)) as [->|]; [by left|right].
        split; [lia|]. by replace (j - i) with (S (j - S i)) in Hj by lia.
    + rewrite IH. split.
      * intros [Hle Hj]. split; [lia|].
        by replace (j - i) with (S (j - S i)) by lia.
      * intros [Hle Hj]. destruct (decide (j = i)) as [->|].
        -- replace (i - i) with 0 in Hj by lia. naive_solver.
        -- split; [lia|]. by replace (j - i) with (S (j - S i)) in Hj by lia.
Qed.

Lemma positions_nil name cols i : positions name cols i = [] ↔ name ∉ cols.
Proof.
  revert i. induction cols as [|c cols IH]; intros i; simpl.
  - split; [intros _; apply not_elem_of_nil|done].
  - rewrite not_elem_of_cons. destruct (decide (c = name)); [naive_solver|].
    rewrite IH. naive_solver.
Qed.

Lemma positions_fmap (f : string → string) name cols i :
  (∀ c, c ∈ cols → f c = name ↔ c = name) →
  positions name (f <$> cols) i = positions name cols i.
Proof.
  revert i. induction cols as [|c cols IH]; intros i Hf; simpl; [done|].
  rewrite IH by (intros; apply Hf; by right).
  destruct (decide (f c = name)) as [Hfc|Hfc], (decide (c = name)) as [Hc|Hc];
    try done; exfalso.
  - apply Hc, Hf; [by left|done].
  - apply Hfc, Hf; [by left|done].
Qed.

Lemma positions_app name l1 l2 i :
  positions name (l1 ++ l2) i = positions name l1 i ++ positions name l2 (i + length l1).
Proof.
  revert i. induction l1 as [|c l1 IH]; intros i; simpl.
  - by rewrite Nat.add_0_r.
  - rewrite IH. replace (S i + length l1) with (i + S (length l1)) by lia.
    by destruct (decide (c = name)).
Qed.

Lemma has_column_lookup cols name j :
  positions name cols 0 = [j] → cols !! j = Some name.
Proof.
  intros Hp. assert (j ∈ positions name cols 0) as Hj by (rewrite Hp; by left).
  apply positions_elem in Hj as [_ Hj]. by rewrite Nat.sub_0_r in Hj.
Qed.

Lemma getitem_Ok e name df j :
  getitem e name df = Ok j ↔ positions name (columns df) 0 = [j].
Proof.
  unfold getitem. destruct (positions name (columns df) 0) as [|j' [|??]];
    naive_solver.
Qed.

Lemma getitem_KeyError e name df :
  name ∉ columns df → getitem e name df = Raise (KeyError name).
Proof. intros Hn. unfold getitem. by apply (positions_nil _ _ 0) in Hn as ->. Qed.

Lemma get_cell df name j r :
  positions name (columns df) 0 = [j] → get df name r = cell j r.
Proof. intros Hp. unfold get. by rewrite Hp. Qed.

(** ** Masks *)

Lemma mask_and_fmap {A} (f g : A → bool) (l : list A) :
  mask_and (f <$> l) (g <$> l) = (λ x, f x && g x) <$> l.
Proof.
  unfold mask_and. induction l as [|x l IH]; [done|].
  rewrite !fmap_cons. cbn [zip_with]. by rewrite IH.
Qed.

Lemma boolean_index_filter (f : Row → bool) (P : Row → Prop)
    `{∀ r, Decision (P r)} rs :
  (∀ r, f r = true ↔ P r) →
  boolean_index (f <$> rs) rs = filter P rs.
Proof.
  intros Hf. induction rs as [|r rs IH]; [done|].
  rewrite fmap_cons, filter_cons. cbn [boolean_index]. rewrite IH.
  destruct (f r) eqn:Hr, (decide (P r)) as [HP|HP]; try done; exfalso.
  - by apply HP, Hf.
  - apply Hf in HP. congruence.
Qed.

Lemma window_mask_Ok df p jd jt :
  positions "Date" (columns df) 0 = [jd] →
  positions "Ticker" (columns df) 0 = [jt] →
  window_mask df p =
    Ok ((λ r, ge_timestamp (Timestamp (start_date p)) (cell jd r)
              && le_timestamp (Timestamp (end_date p)) (cell jd r)
              && eq_text (selected_ticker p) (cell jt r)) <$> rows df).
Proof.
  intros Hd Ht. unfold window_mask.
  rewrite (proj2 (getitem_Ok _ _ _ _) Hd), (proj2 (getitem_Ok _ _ _ _) Ht).
  simpl. unfold series. rewrite <-!list_fmap_compose, !mask_and_fmap. done.
Qed.

Lemma window_test df p jd jt r :
  positions "Date" (columns df) 0 = [jd] →
  positions "Ticker" (columns df) 0 = [jt] →
  ge_timestamp (Timestamp (start_date p)) (cell jd r)
  && le_timestamp (Timestamp (end_date p)) (cell jd r)
  && eq_text (selected_ticker p) (cell jt r) = true ↔ in_window df p r.
Proof.
  intros Hd Ht. unfold in_window.
  rewrite (get_cell _ _ _ _ Hd), (get_cell _ _ _ _ Ht).
  destruct (cell jd r), (cell jt r); simpl;
    rewrite ?andb_true_iff, ?bool_decide_eq_true, ?andb_false_r;
    naive_solver.
Qed.

(** ** Sortedness *)

Lemma Sorted_weaken {A} (R R' : relation A) (P : A → Prop) l :
  (∀ x y, P x → P y → R x y → R' x y) →
  Forall P l → Sorted R l → Sorted R' l.
Proof.
  intros HR HP Hs. induction Hs as [|x l _ IH Hhd]; [constructor|].
  apply Forall_cons in HP as [Hx Hl]. constructor; [by apply IH|].
  destruct Hhd as [|y l Hxy]; constructor.
  apply Forall_cons in Hl as [Hy _]. by apply HR.
Qed.

#[global] Instance date_le_trans j : Transitive (date_le j).
Proof.
  intros r1 r2 r3. unfold date_le.
  destruct (cell j r1), (cell j r2), (cell j r3); try done. lia.
Qed.

Lemma StronglySorted_filter {A} (R : relation A) (P : A → Prop)
    `{∀ x, Decision (P x)} l :
  StronglySorted R l → StronglySorted R (filter P l).
Proof.
  induction 1 as [|x l _ IH Hx]; [constructor|].
  rewrite filter_cons. destruct (decide (P x)); [|done].
  constructor; [done|]. rewrite Forall_forall in Hx |- *.
  intros y [_ Hy]%list_elem_of_filter. by apply Hx.
Qed.

(** ** Column assignment *)

Lemma cell_insert_eq j v l cs :
  j < length cs → cell j (mkRow l (<[j := v]> cs)) = v.
Proof. intros Hj. unfold cell. simpl. by rewrite list_lookup_insert_eq. Qed.

Lemma cell_insert_ne i j v l cs :
  i ≠ j → cell i (mkRow l (<[j := v]> cs)) = cell i (mkRow l cs).
Proof. intros Hj. unfold cell. simpl. by rewrite list_lookup_insert_ne. Qed.

Lemma fmap_zip_with_l {A B C D} (f : A → B → C) (g : C → D) (h : A → D)
    (l1 : list A) (l2 : list B) :
  length l2 = length l1 → (∀ x y, g (f x y) = h x) →
  g <$> zip_with f l1 l2 = h <$> l1.
Proof.
  intros Hlen Hg. revert l2 Hlen.
  induction l1 as [|x l1 IH]; intros [|y l2] ?; simplify_eq/=; [done|].
  rewrite Hg. f_equal. by apply IH.
Qed.

Lemma zip_with_zip_with {A B B' C C' D E} (f : A → B' → D) (g : D → C' → E)
    (F : B → B') (G : C → C') (l1 : list A) (l2 : list B) (l3 : list C) :
  zip_with g (zip_with f l1 (F <$> l2)) (G <$> l3)
  = (λ x, g (f x.1 (F x.2.1)) (G x.2.2)) <$> zip l1 (zip l2 l3).
Proof.
  revert l2 l3. induction l1 as [|x l1 IH]; intros [|y l2] [|z l3]; try done.
  simpl. f_equal. apply IH.
Qed.

Lemma lookup_zip2 {A B} (l1 : list A) (l2 : list B) i x :
  zip l1 l2 !! i = Some x ↔ l1 !! i = Some x.1 ∧ l2 !! i = Some x.2.
Proof.
  destruct x as [a b]. simpl.
  revert l2 i. induction l1 as [|x l1 IH]; intros [|y l2] [|i];
    simpl; try naive_solver.
Qed.

(** ** The loaders *)

Lemma filter_fmap_omap {A B} (test : B → bool) (h : A → B) (k : A → option B)
    (Q : A → Prop) (l : list A) :
  Forall Q l →
  (∀ x, Q x → k x = if test (h x) then Some (h x) else None) →
  List.filter test (h <$> l) = omap k l.
Proof.
  intros HQ Hk. induction HQ as [|x l Hx _ IH]; [done|].
  rewrite fmap_cons. simpl. rewrite (Hk x Hx), IH. by destruct (test (h x)).
Qed.

Lemma label_parsed_stock_row jd ja x r :
  parsed_stock_row jd ja x = Some r → label r = label x.1.
Proof.
  unfold parsed_stock_row. destruct x as [r0 [[t|] [q|]]]; simpl; try done.
  by intros [= <-].
Qed.

Lemma label_parsed_full_row jd x r :
  parsed_full_row jd x = Some r → label r = label x.1.
Proof.
  unfold parsed_full_row. destruct x as [r0 [t|]]; simpl; try done.
  by intros [= <-].
Qed.

Section loading.
Context `{Pandas}.

Lemma load_stock_df_rows raw jd ja :
  well_formed raw →
  positions "Date" (strip <$> columns raw) 0 = [jd] →
  positions "Adj Close" (strip <$> columns raw) 0 = [ja] →
  ∃ rs, load_stock_df raw = Ok (mkDF (strip <$> columns raw) rs)
    ∧ rs ≡ₚ omap (parsed_stock_row jd ja) (stock_parses raw jd ja)
    ∧ Sorted (λ r1 r2, na_last_le (time_of (cell jd r1)) (time_of (cell jd r2))) rs.
Proof.
  intros Hwf Hd Ha.
  assert (jd ≠ ja) as Hne.
  { intros ->. apply has_column_lookup in Hd, Ha. congruence. }
  assert (jd < length (columns raw) ∧ ja < length (columns raw)) as [Hjd Hja].
  { apply has_column_lookup, lookup_lt_Some in Hd, Ha.
    by rewrite length_fmap in Hd, Ha. }
  unfold load_stock_df, getitem, dropna. cbn [columns setitem rows].
  rewrite Hd. cbn [mbind result_bind]. rewrite Ha. cbn [mbind result_bind].
  cbn [subset_positions]. rewrite Hd, Ha. cbn [mbind result_bind mret result_ret app columns].
  rewrite Hd. cbn [mbind result_bind mret result_ret columns rows].
  eexists. split; [reflexivity|]. split; [|apply sort_values_sorted].
  rewrite sort_values_perm. apply reflexive_eq.
  unfold series, setitem. cbn [rows columns].
  set (dates := to_datetime (cell jd <$> rows raw)).
  rewrite (fmap_zip_with_l _ (cell ja) (cell ja) (rows raw) (of_time <$> dates)).
  2:{ unfold dates. by rewrite length_fmap, to_datetime_length, length_fmap. }
  2:{ intros r v. by apply cell_insert_ne. }
  rewrite zip_with_zip_with.
  unfold stock_parses. fold dates.
  eapply (filter_fmap_omap _ _ _ (λ x, length (cells x.1) = length (columns raw))).
  - unfold well_formed in Hwf. rewrite Forall_forall in Hwf. rewrite Forall_forall.
    intros [r dn] Hx%elem_of_zip_l. by apply Hwf.
  - intros [r [d n]] Hlen. simpl in Hlen. cbn [fst snd forallb label cells].
    rewrite cell_insert_ne by done.
    rewrite cell_insert_eq by lia.
    rewrite cell_insert_eq by (rewrite length_insert; lia).
    unfold parsed_stock_row. by destruct d, n.
Qed.

Lemma load_full_data_df_rows raw jd :
  well_formed raw →
  positions "Date" (strip <$> columns raw) 0 = [jd] →
  ∃ rs, load_full_data_df raw = Ok (mkDF (strip <$> columns raw) rs)
    ∧ rs ≡ₚ omap (parsed_full_row jd) (full_parses raw jd)
    ∧ Sorted (λ r1 r2, na_last_le (time_of (cell jd r1)) (time_of (cell jd r2))) rs.
Proof.
  intros Hwf Hd.
  assert (jd < length (columns raw)) as Hjd.
  { apply has_column_lookup, lookup_lt_Some in Hd. by rewrite length_fmap in Hd. }
  unfold load_full_data_df, getitem, dropna. cbn [columns setitem rows].
  rewrite Hd. cbn [mbind result_bind subset_positions]. rewrite Hd.
  cbn [mbind result_bind mret result_ret app columns].
  rewrite Hd. cbn [mbind result_bind mret result_ret columns rows].
  eexists. split; [reflexivity|]. split; [|apply sort_values_sorted].
  rewrite sort_values_perm. apply reflexive_eq.
  unfold series, full_parses. cbn [rows columns].
  set (dates := to_datetime (cell jd <$> rows raw)).
  rewrite zip_with_fmap_r, zip_with_zip.
  eapply (filter_fmap_omap _ _ _ (λ x, length (cells x.1) = length (columns raw))).
  - unfold well_formed in Hwf. rewrite Forall_forall in Hwf. rewrite Forall_forall.
    intros [r dn] Hx%elem_of_zip_l. by apply Hwf.
  - intros [r d] Hlen. simpl in Hlen. cbn [fst snd forallb label cells uncurry].
    rewrite cell_insert_eq by lia.
    unfold parsed_full_row. by destruct d.
Qed.

Lemma load_stock_df_columns raw df :
  load_stock_df raw = Ok df →
  has_column (strip <$> columns raw) "Date"
  ∧ has_column (strip <$> columns raw) "Adj Close".
Proof.
  unfold load_stock_df. intros Hl.
  apply bind_Ok in Hl as (jd & Hd%getitem_Ok & Hl).
  apply bind_Ok in Hl as (ja & Ha%getitem_Ok & Hl).
  split; [by exists jd|by exists ja].
Qed.

Lemma load_full_data_df_columns raw df :
  load_full_data_df raw = Ok df → has_column (strip <$> columns raw) "Date".
Proof.
  unfold load_full_data_df. intros Hl.
  apply bind_Ok in Hl as (jd & Hd%getitem_Ok & Hl). by exists jd.
Qed.

End loading.

Lemma sorted_dated jd rs :
  Forall (λ r, ∃ t, cell jd r = VTime t) rs →
  Sorted (λ r1 r2, na_last_le (time_of (cell jd r1)) (time_of (cell jd r2))) rs →
  StronglySorted (date_le jd) rs.
Proof.
  intros Ht Hs. apply Sorted_StronglySorted; [apply _|].
  eapply Sorted_weaken; [|exact Ht|exact Hs].
  intros r1 r2 [t1 H1] [t2 H2]. unfold date_le. by rewrite H1, H2.
Qed.

Section loaded.
Context `{Pandas}.

Lemma load_stock_df_loaded raw df :
  well_formed raw → load_stock_df raw = Ok df →
  columns df = strip <$> columns raw ∧ ∃ jd ja, dated jd df ∧ priced ja df.
Proof.
  intros Hwf Hl.
  destruct (load_stock_df_columns _ _ Hl) as [[jd Hd] [ja Ha]].
  destruct (load_stock_df_rows raw jd ja Hwf Hd Ha) as (rs & Hrs & Hperm & Hsort).
  rewrite Hl in Hrs. injection Hrs as ->. split; [done|]. exists jd, ja.
  assert (jd ≠ ja) as Hne.
  { intros ->. apply has_column_lookup in Hd, Ha. congruence. }
  assert (jd < length (columns raw) ∧ ja < length (columns raw)) as [Hjd Hja].
  { apply has_column_lookup, lookup_lt_Some in Hd, Ha.
    by rewrite length_fmap in Hd, Ha. }
  assert (Forall (λ r, (∃ t, cell jd r = VTime t) ∧ (∃ q, cell ja r = VNum q)
                       ∧ length (cells r) = length (strip <$> columns raw)) rs)
    as Hall.
  { rewrite Hperm. apply Forall_forall. intros r (x & Hx & Hr)%list_elem_of_omap.
    destruct x as [r0 [d n]].
    assert (length (cells r0) = length (columns raw)) as Hlen.
    { apply elem_of_zip_l in Hx. unfold well_formed in Hwf.
      rewrite Forall_forall in Hwf. by apply Hwf. }
    unfold parsed_stock_row in Hr.
    destruct d as [t|], n as [q|]; simpl in Hr; try discriminate.
    injection Hr as <-.
    rewrite cell_insert_ne by done.
    rewrite !cell_insert_eq by (rewrite ?length_insert; lia).
    cbn [cells]. rewrite !length_insert, length_fmap. eauto. }
  assert (Forall (λ r, ∃ t, cell jd r = VTime t) rs) as Hdates.
  { eapply Forall_impl; [exact Hall|]. naive_solver. }
  split; [split_and!|split]; simpl; try done.
  - by apply sorted_dated.
  - eapply Forall_impl; [exact Hall|]. naive_solver.
  - eapply Forall_impl; [exact Hall|]. naive_solver.
Qed.

Lemma load_full_data_df_loaded raw df :
  well_formed raw → load_full_data_df raw = Ok df →
  columns df = strip <$> columns raw ∧ ∃ jd, dated jd df.
Proof.
  intros Hwf Hl.
  destruct (load_full_data_df_columns _ _ Hl) as [jd Hd].
  destruct (load_full_data_df_rows raw jd Hwf Hd) as (rs & Hrs & Hperm & Hsort).
  rewrite Hl in Hrs. injection Hrs as ->. split; [done|]. exists jd.
  assert (jd < length (columns raw)) as Hjd.
  { apply has_column_lookup, lookup_lt_Some in Hd. by rewrite length_fmap in Hd. }
  assert (Forall (λ r, (∃ t, cell jd r = VTime t)
                       ∧ length (cells r) = length (strip <$> columns raw)) rs)
    as Hall.
  { rewrite Hperm. apply Forall_forall. intros r (x & Hx & Hr)%list_elem_of_omap.
    destruct x as [r0 d].
    assert (length (cells r0) = length (columns raw)) as Hlen.
    { apply elem_of_zip_l in Hx. unfold well_formed in Hwf.
      rewrite Forall_forall in Hwf. by apply Hwf. }
    unfold parsed_full_row in Hr.
    destruct d as [t|]; simpl in Hr; try discriminate.
    injection Hr as <-.
    rewrite !cell_insert_eq by (rewrite ?length_insert; lia).
    cbn [cells]. rewrite !length_insert, length_fmap. eauto. }
  assert (Forall (λ r, ∃ t, cell jd r = VTime t) rs) as Hdates.
  { eapply Forall_impl; [exact Hall|]. naive_solver. }
  split_and!; simpl; try done.
  - by apply sorted_dated.
  - eapply Forall_impl; [exact Hall|]. naive_solver.
Qed.

End loaded.

(** ** Filtering by window, ticker and flag *)

Lemma filter_stock_Ok df p jd jt :
  positions "Date" (columns df) 0 = [jd] →
  positions "Ticker" (columns df) 0 = [jt] →
  filter_stock df p = Ok (mkDF (columns df) (filter (in_window df p) (rows df))).
Proof.
  intros Hd Ht. unfold filter_stock. rewrite (window_mask_Ok _ _ _ _ Hd Ht).
  simpl. do 2 f_equal. apply boolean_index_filter.
  intros r. by apply window_test.
Qed.

Lemma flag_test df model jm r :
  positions model (columns df) 0 = [jm] →
  eq_one (cell jm r) = true ↔ flagged df model r.
Proof.
  intros Hm. unfold flagged. rewrite (get_cell _ _ _ _ Hm).
  by destruct (cell jm r).
Qed.

Lemma filter_anomalies_Ok df p model jd jt jm :
  positions "Date" (columns df) 0 = [jd] →
  positions "Ticker" (columns df) 0 = [jt] →
  positions model (columns df) 0 = [jm] →
  filter_anomalies df p model =
    Ok (mkDF (columns df)
             (filter (λ r, in_window df p r ∧ flagged df model r) (rows df))).
Proof.
  intros Hd Ht Hm. unfold filter_anomalies.
  rewrite (window_mask_Ok _ _ _ _ Hd Ht). simpl.
  rewrite (proj2 (getitem_Ok _ _ _ _) Hm). simpl.
  unfold series. rewrite <-list_fmap_compose, mask_and_fmap.
  do 2 f_equal. apply boolean_index_filter. intros r.
  rewrite andb_true_iff, (window_test _ _ _ _ _ Hd Ht). simpl.
  by rewrite (flag_test _ _ _ _ Hm).
Qed.

Lemma filter_anomalies_KeyError df p model jd jt :
  positions "Date" (columns df) 0 = [jd] →
  positions "Ticker" (columns df) 0 = [jt] →
  model ∉ columns df →
  filter_anomalies df p model = Raise (KeyError model).
Proof.
  intros Hd Ht Hm. unfold filter_anomalies.
  rewrite (window_mask_Ok _ _ _ _ Hd Ht). simpl.
  by rewrite (getitem_KeyError _ _ _ Hm).
Qed.

Lemma computeView_Rendered stock_df full_data_df p v :
  computeView stock_df full_data_df p = Rendered v →
  (start_date p ≤ end_date p)%Z
  ∧ anomaly_comparison stock_df full_data_df p = Ok v.
Proof.
  unfold computeView. case_bool_decide; [done|].
  destruct (filter_stock stock_df p) as [fs|e]; simpl; [|done].
  destruct (anomaly_comparison stock_df full_data_df p); [|done].
  intros [= ->]. split; [lia|done].
Qed.

Lemma anomaly_comparison_filtered stock_df full_data_df p v :
  anomaly_comparison stock_df full_data_df p = Ok v →
  filter_stock stock_df p = Ok (filtered_stock_df v).
Proof.
  unfold anomaly_comparison. intros Hv.
  apply bind_Ok in Hv as (fs & Hfs & Hv). rewrite Hfs. f_equal.
  repeat (apply bind_Ok in Hv as (? & _ & Hv)). by injection Hv as <-.
Qed.

Section filtering.
Context `{Pandas}.

(** C1: the filtered price table of a loaded price table consists of
    exactly the rows whose Date lies in the closed window
    [[start_date, end_date]] and whose Ticker is the selected one, in
    their original order, and it is ascending by Date. *)
Theorem filtered_prices_exact raw stock_df p :
  well_formed raw →
  load_stock_df raw = Ok stock_df →
  has_column (columns stock_df) "Ticker" →
  ∃ filtered jd,
    filter_stock stock_df p = Ok filtered
    ∧ columns filtered = columns stock_df
    ∧ rows filtered = filter (in_window stock_df p) (rows stock_df)
    ∧ positions "Date" (columns filtered) 0 = [jd]
    ∧ StronglySorted (date_le jd) (rows filtered)
    ∧ ∀ full_data_df v,
        computeView stock_df full_data_df p = Rendered v →
        filtered_stock_df v = filtered.
Proof.
  intros Hwf Hload [jt Ht].
  destruct (load_stock_df_loaded _ _ Hwf Hload)
    as (_ & jd & ja & (Hd & _ & Hsorted & _) & _).
  eexists _, jd. split; [by apply (filter_stock_Ok _ _ jd jt)|].
  split_and!; try done.
  - by apply StronglySorted_filter.
  - intros full v [_ Hv%anomaly_comparison_filtered]%computeView_Rendered.
    rewrite (filter_stock_Ok _ _ jd jt) in Hv by done. by injection Hv.
Qed.

End filtering.

(** C10: among the rows of the anomaly table, those kept for a model are
    exactly the rows inside the window and ticker whose flag for that
    model is a number equal to 1; a row whose flag is missing, is text or
    is another number is left out, and no such value raises. *)
Theorem flag_equals_one full_data_df p model :
  has_column (columns full_data_df) "Date" →
  has_column (columns full_data_df) "Ticker" →
  has_column (columns full_data_df) model →
  ∃ anomalies,
    filter_anomalies full_data_df p model = Ok anomalies
    ∧ rows anomalies
      = filter (λ r, in_window full_data_df p r ∧ flagged full_data_df model r)
               (rows full_data_df)
    ∧ (∀ r, r ∈ rows full_data_df → in_window full_data_df p r →
         (r ∈ rows anomalies ↔
          ∃ q, get full_data_df model r = VNum q ∧ (q == 1)%Q))
    ∧ (∀ r, r ∈ rows anomalies →
         get full_data_df model r ≠ VNaN
         ∧ get full_data_df model r ≠ VNum 0
         ∧ ∀ s, get full_data_df model r ≠ VStr s).
Proof.
  intros [jd Hd] [jt Ht] [jm Hm]. eexists.
  split; [by apply (filter_anomalies_Ok _ _ _ jd jt jm)|].
  split; [done|]. simpl. split.
  - intros r Hr Hw. rewrite list_elem_of_filter. unfold flagged.
    destruct (get full_data_df model r) as [q| | | |]; try naive_solver.
    rewrite Qeq_bool_iff. naive_solver.
  - intros r [[_ Hf] _]%list_elem_of_filter. unfold flagged in Hf.
    destruct (get full_data_df model r) as [q| | | |]; try done.
    split_and!; try done. intros [= ->]. done.
Qed.

(** ** Strings *)

Lemma append_cons x (a b : string) : String x a +:+ b = String x (a +:+ b).
Proof. reflexivity. Qed.

Lemma append_nil_l (b : string) : "" +:+ b = b.
Proof. reflexivity. Qed.

Lemma append_assoc (a b c : string) : (a +:+ b) +:+ c = a +:+ (b +:+ c).
Proof.
  induction a as [|x a IH]; [done|]. by rewrite !append_cons, IH.
Qed.

Lemma append_nil_r (a : string) : a +:+ "" = a.
Proof. induction a as [|x a IH]; [done|]. by rewrite append_cons, IH. Qed.

Lemma chars_app (a b : string) :
  chars (a +:+ b) = chars a ++ chars b.
Proof.
  induction a as [|x a IH]; [done|]. rewrite append_cons. simpl. by rewrite IH.
Qed.

Lemma chars_inj (a b : string) :
  chars a = chars b → a = b.
Proof.
  intros Hab. rewrite <-(String.string_of_list_ascii_of_string a),
    <-(String.string_of_list_ascii_of_string b). by rewrite Hab.
Qed.

(** Appending a fixed suffix is injective. *)
Lemma append_inj_l (s a b : string) : a +:+ s = b +:+ s → a = b.
Proof.
  intros Hab. apply chars_inj.
  apply (f_equal String.list_ascii_of_string) in Hab. rewrite !chars_app in Hab.
  by apply app_inj_2 in Hab as [? _].
Qed.

(** A string with a suffix appended ends in the last character of the suffix. *)
Lemma last_chars_app (a s : string) x :
  last (chars s) = Some x →
  last (chars (a +:+ s)) = Some x.
Proof.
  intros Hs. rewrite chars_app.
  destruct (chars s) as [|y l] eqn:El using rev_ind; [done|].
  rewrite last_snoc in Hs. injection Hs as ->.
  by rewrite app_assoc, last_snoc.
Qed.

Lemma suffixed_not_plain others suffix c name :
  suffix = "_x" ∨ suffix = "_y" → plain name →
  suffixed others suffix c = name → c = name.
Proof.
  unfold suffixed. case_bool_decide; [|done].
  intros Hs [Hx Hy] <-. exfalso.
  destruct Hs as [-> | ->]; [apply Hx|apply Hy]; by apply last_chars_app.
Qed.

Lemma plain_Date : plain "Date".
Proof. by split. Qed.
Lemma plain_Ticker : plain "Ticker".
Proof. by split. Qed.

(** ** Inner joins *)

Lemma key_positions_keys df jd jt :
  positions "Date" (columns df) 0 = [jd] →
  positions "Ticker" (columns df) 0 = [jt] →
  key_positions keys df = Ok [jd; jt].
Proof.
  intros Hd Ht. unfold keys. simpl.
  by rewrite (proj2 (getitem_Ok _ _ _ _) Hd), (proj2 (getitem_Ok _ _ _ _) Ht).
Qed.

Lemma key_positions_keys_inv df lk :
  key_positions keys df = Ok lk →
  ∃ jd jt, lk = [jd; jt]
    ∧ positions "Date" (columns df) 0 = [jd]
    ∧ positions "Ticker" (columns df) 0 = [jt].
Proof.
  unfold keys. simpl. intros Hk.
  apply bind_Ok in Hk as (jd & Hd%getitem_Ok & Hk).
  apply bind_Ok in Hk as (js & Hjs & Hk).
  apply bind_Ok in Hjs as (jt & Ht%getitem_Ok & Hjs).
  injection Hjs as <-. injection Hk as <-. by exists jd, jt.
Qed.

Lemma elem_of_nonkey on cols j c :
  (j, c) ∈ nonkey on cols ↔ cols !! j = Some c ∧ c ∉ on.
Proof.
  unfold nonkey. rewrite list_elem_of_In, filter_In, <-list_elem_of_In.
  rewrite elem_of_lookup_imap. simpl.
  rewrite negb_true_iff, bool_decide_eq_false. naive_solver.
Qed.

Lemma nonkey_labels on cols c : c ∈ (nonkey on cols).*2 → c ∈ cols ∧ c ∉ on.
Proof.
  intros ([j c'] & -> & [Hj Hc]%elem_of_nonkey)%list_elem_of_fmap. simpl.
  split; [by eapply list_elem_of_lookup_2|done].
Qed.

Lemma merge_inv L R M :
  merge L R keys = Ok M →
  ∃ jd jt jd' jt',
    positions "Date" (columns L) 0 = [jd]
    ∧ positions "Ticker" (columns L) 0 = [jt]
    ∧ positions "Date" (columns R) 0 = [jd']
    ∧ positions "Ticker" (columns R) 0 = [jt']
    ∧ columns M = merged_columns L R
    ∧ rows M = imap mkRow (inner_join [jd; jt] [jd'; jt']
                             (nonkey keys (columns R)).*1 (rows L) (rows R)).
Proof.
  unfold merge. intros Hm.
  apply bind_Ok in Hm as (lk & (jd & jt & -> & Hd & Ht)%key_positions_keys_inv & Hm).
  apply bind_Ok in Hm as (rk & (jd' & jt' & -> & Hd' & Ht')%key_positions_keys_inv & Hm).
  destruct (_ || _); [done|]. injection Hm as <-.
  by exists jd, jt, jd', jt'.
Qed.

Lemma merged_columns_positions L R name :
  plain name → name ∈ keys →
  positions name (merged_columns L R) 0 = positions name (columns L) 0.
Proof.
  intros Hplain Hkey. unfold merged_columns. rewrite positions_app.
  rewrite positions_fmap.
  - replace (positions name (_ <$> _) _) with (@nil nat); [by rewrite app_nil_r|].
    symmetry. apply positions_nil. intros (c & Hc & Hin)%list_elem_of_fmap.
    symmetry in Hc. apply suffixed_not_plain in Hc as ->; [|by right|done].
    by apply nonkey_labels in Hin as [_ ?].
  - intros c _. split; [apply suffixed_not_plain; [by left|done]|].
    intros ->. unfold suffixed. case_bool_decide as Hin; [|done].
    by apply nonkey_labels in Hin as [_ ?].
Qed.

Lemma elem_of_inner_join lk rk rkeep ls rs cs :
  cs ∈ inner_join lk rk rkeep ls rs ↔
  ∃ l r, l ∈ ls ∧ r ∈ rs ∧ keys_match lk rk l r = true
         ∧ cs = cells l ++ ((λ j, cell j r) <$> rkeep).
Proof.
  unfold inner_join. rewrite list_elem_of_bind. split.
  - intros (l & (r & Hcs & Hr)%list_elem_of_bind & Hl).
    apply list_elem_of_singleton in Hcs.
    apply list_elem_of_In, filter_In in Hr as [Hr%list_elem_of_In Hm].
    by exists l, r.
  - intros (l & r & Hl & Hr & Hm & ->). exists l. split; [|done].
    apply list_elem_of_bind. exists r. split; [by apply list_elem_of_singleton|].
    apply list_elem_of_In, filter_In. by rewrite <-list_elem_of_In.
Qed.

Lemma cell_app_l j l cs extra v :
  cs !! j = Some v → cell j (mkRow l (cs ++ extra)) = v.
Proof. intros Hj. unfold cell. simpl. by rewrite lookup_app_l_Some with (x := v). Qed.

Lemma keys_match_keyed jd jt jd' jt' l r t s t' s' :
  cell jd l = VTime t → cell jt l = VStr s →
  cell jd' r = VTime t' → cell jt' r = VStr s' →
  keys_match [jd; jt] [jd'; jt'] l r = true ↔ t = t' ∧ s = s'.
Proof.
  intros H1 H2 H3 H4. unfold keys_match. simpl. rewrite H1, H2, H3, H4. simpl.
  rewrite !andb_true_iff, !bool_decide_eq_true. naive_solver.
Qed.

Lemma keyed_row_key jd jt df r :
  keyed jd jt df → row_key df r = (cell jd r, cell jt r).
Proof.
  intros (Hd & Ht & _). unfold row_key.
  by rewrite (get_cell _ _ _ _ Hd), (get_cell _ _ _ _ Ht).
Qed.

Lemma cell_is_Some j r v : cell j r = v → v ≠ VNaN → cells r !! j = Some v.
Proof. unfold cell. destruct (cells r !! j); simpl; congruence. Qed.

(** Joining two keyed frames: the result is keyed like the left one, and
    its keys are the keys the two frames share. *)
Lemma merge_keyed jd jt jd' jt' L R M :
  keyed jd jt L → keyed jd' jt' R → merge L R keys = Ok M →
  keyed jd jt M ∧ ∀ k, k ∈ keys_of M ↔ k ∈ keys_of L ∧ k ∈ keys_of R.
Proof.
  intros HL HR Hm.
  destruct (merge_inv _ _ _ Hm) as (j1 & j2 & j3 & j4 & H1 & H2 & H3 & H4 & Hcols & Hrows).
  pose proof HL as HL0. pose proof HR as HR0.
  destruct HL as (Hd & Ht & HLrows), HR as (Hd' & Ht' & HRrows).
  rewrite Hd in H1. rewrite Ht in H2. rewrite Hd' in H3. rewrite Ht' in H4.
  injection H1 as <-. injection H2 as <-. injection H3 as <-. injection H4 as <-.
  assert (keyed jd jt M) as HM.
  { split_and!.
    - rewrite Hcols, merged_columns_positions; [done|apply plain_Date|].
      unfold keys. set_solver.
    - rewrite Hcols, merged_columns_positions; [done|apply plain_Ticker|].
      unfold keys. set_solver.
    - rewrite Hrows. apply Forall_forall.
      intros m (i & cs & -> & Hcs)%elem_of_lookup_imap.
      apply list_elem_of_lookup_2, elem_of_inner_join in Hcs
        as (l & r & Hl & _ & _ & ->).
      rewrite Forall_forall in HLrows.
      destruct (HLrows l Hl) as (t & s & Hlt & Hls). exists t, s.
      split; apply cell_app_l; by apply cell_is_Some. }
  split; [done|]. intros k. unfold keys_of.
  rewrite !list_elem_of_fmap. rewrite Forall_forall in HLrows, HRrows. split.
  - intros (m & -> & Hin). rewrite (keyed_row_key _ _ _ _ HM).
    rewrite Hrows in Hin. apply elem_of_lookup_imap in Hin as (i & cs & -> & Hcs).
    apply list_elem_of_lookup_2, elem_of_inner_join in Hcs
      as (l & r & Hl & Hr & Hmatch & ->).
    destruct (HLrows l Hl) as (t & s & Hlt & Hls).
    destruct (HRrows r Hr) as (t' & s' & Hrt & Hrs).
    destruct (proj1 (keys_match_keyed _ _ _ _ _ _ _ _ _ _ Hlt Hls Hrt Hrs) Hmatch)
      as [Et Es].
    subst t' s'.
    rewrite (cell_app_l jd _ _ _ (VTime t)), (cell_app_l jt _ _ _ (VStr s))
      by by apply cell_is_Some.
    split.
    + exists l. split; [|done].
      rewrite (keyed_row_key jd jt _ _ HL0). by rewrite Hlt, Hls.
    + exists r. split; [|done].
      rewrite (keyed_row_key jd' jt' _ _ HR0). by rewrite Hrt, Hrs.
  - intros [(l & -> & Hl) (r & Hk & Hr)].
    rewrite (keyed_row_key jd jt _ _ HL0) in Hk |- *.
    rewrite (keyed_row_key jd' jt' _ _ HR0) in Hk.
    destruct (HLrows l Hl) as (t & s & Hlt & Hls).
    destruct (HRrows r Hr) as (t' & s' & Hrt & Hrs).
    rewrite Hlt, Hls, Hrt, Hrs in Hk. injection Hk as <- <-.
    assert (cells l ++ ((λ j, cell j r) <$> (nonkey keys (columns R)).*1)
            ∈ inner_join [jd; jt] [jd'; jt'] (nonkey keys (columns R)).*1
                (rows L) (rows R)) as Hcs.
    { apply elem_of_inner_join. exists l, r. split_and!; try done.
      by apply (keys_match_keyed _ _ _ _ _ _ _ _ _ _ Hlt Hls Hrt Hrs). }
    apply list_elem_of_lookup in Hcs as [i Hi].
    eexists (mkRow i (cells l ++ _)). split.
    + rewrite (keyed_row_key _ _ _ _ HM).
      rewrite (cell_app_l jd _ _ _ (VTime t)), (cell_app_l jt _ _ _ (VStr s))
        by by apply cell_is_Some.
      by rewrite Hlt, Hls.
    + rewrite Hrows. by apply elem_of_lookup_imap_2.
Qed.

(** ** Inverting the pipeline *)

Lemma window_mask_inv df p m :
  window_mask df p = Ok m →
  ∃ jd jt, positions "Date" (columns df) 0 = [jd]
         ∧ positions "Ticker" (columns df) 0 = [jt].
Proof.
  unfold window_mask. intros Hm.
  apply bind_Ok in Hm as (jd & Hd%getitem_Ok & Hm).
  apply bind_Ok in Hm as (jd' & _ & Hm).
  apply bind_Ok in Hm as (jt & Ht%getitem_Ok & Hm).
  by exists jd, jt.
Qed.

Lemma filter_stock_inv df p fs :
  filter_stock df p = Ok fs →
  ∃ jd jt, positions "Date" (columns df) 0 = [jd]
         ∧ positions "Ticker" (columns df) 0 = [jt]
         ∧ fs = mkDF (columns df) (filter (in_window df p) (rows df)).
Proof.
  intros Hfs. pose proof Hfs as Hfs'. unfold filter_stock in Hfs'.
  apply bind_Ok in Hfs' as (m & (jd & jt & Hd & Ht)%window_mask_inv & _).
  exists jd, jt. split_and!; try done.
  rewrite (filter_stock_Ok _ _ _ _ Hd Ht) in Hfs. by injection Hfs.
Qed.

Lemma filter_anomalies_inv df p model an :
  filter_anomalies df p model = Ok an →
  ∃ jd jt jm, positions "Date" (columns df) 0 = [jd]
         ∧ positions "Ticker" (columns df) 0 = [jt]
         ∧ positions model (columns df) 0 = [jm]
         ∧ an = mkDF (columns df)
                  (filter (λ r, in_window df p r ∧ flagged df model r) (rows df)).
Proof.
  intros Han. pose proof Han as Han'. unfold filter_anomalies in Han'.
  apply bind_Ok in Han' as (m & (jd & jt & Hd & Ht)%window_mask_inv & Han').
  apply bind_Ok in Han' as (jm & Hm%getitem_Ok & _).
  exists jd, jt, jm. split_and!; try done.
  rewrite (filter_anomalies_Ok _ _ _ _ _ _ Hd Ht Hm) in Han. by injection Han.
Qed.

Lemma in_window_cells df p jd jt r :
  positions "Date" (columns df) 0 = [jd] →
  positions "Ticker" (columns df) 0 = [jt] →
  in_window df p r →
  ∃ t, cell jd r = VTime t ∧ cell jt r = VStr (selected_ticker p)
       ∧ (Timestamp (start_date p) ≤ t ≤ Timestamp (end_date p))%Z.
Proof.
  intros Hd Ht. unfold in_window.
  rewrite (get_cell _ _ _ _ Hd), (get_cell _ _ _ _ Ht).
  destruct (cell jd r), (cell jt r); try done. naive_solver.
Qed.

Lemma filter_window_keyed df p jd jt (Q : Row → Prop) `{∀ r, Decision (Q r)} :
  positions "Date" (columns df) 0 = [jd] →
  positions "Ticker" (columns df) 0 = [jt] →
  keyed jd jt (mkDF (columns df) (filter (λ r, in_window df p r ∧ Q r) (rows df))).
Proof.
  intros Hd Ht. split_and!; try done. simpl. apply Forall_forall.
  intros r [[Hw _] _]%list_elem_of_filter.
  destruct (in_window_cells _ _ _ _ _ Hd Ht Hw) as (t & ? & ? & _). eauto.
Qed.

Lemma filter_stock_keyed df p fs :
  filter_stock df p = Ok fs → ∃ jd jt, keyed jd jt fs.
Proof.
  intros (jd & jt & Hd & Ht & ->)%filter_stock_inv. exists jd, jt.
  split_and!; try done. simpl. apply Forall_forall.
  intros r [Hw _]%list_elem_of_filter.
  destruct (in_window_cells _ _ _ _ _ Hd Ht Hw) as (t & ? & ? & _). eauto.
Qed.

Lemma filter_anomalies_keyed df p model an :
  filter_anomalies df p model = Ok an → ∃ jd jt, keyed jd jt an.
Proof.
  intros (jd & jt & jm & Hd & Ht & _ & ->)%filter_anomalies_inv.
  exists jd, jt. by apply filter_window_keyed.
Qed.

(** [df[['Date', 'Ticker', 'Adj Close']]] of a keyed frame. *)
Lemma positions_lookup name cols i j :
  j ∈ positions name cols i → cols !! (j - i) = Some name.
Proof. by intros [_ ?]%positions_elem. Qed.

Lemma getitems_prices_inv jd jt fs P :
  keyed jd jt fs →
  getitems ["Date"; "Ticker"; "Adj Close"] fs = Ok P →
  ∃ jas, positions "Adj Close" (columns fs) 0 = jas ∧ jas ≠ []
    ∧ columns P = ["Date"; "Ticker"] ++ ((λ _, "Adj Close") <$> jas)
    ∧ rows P = (λ r, mkRow (label r)
                       ([cell jd r; cell jt r] ++ ((λ j, cell j r) <$> jas)))
               <$> rows fs.
Proof.
  intros (Hd & Ht & _). unfold getitems. simpl. rewrite Hd, Ht. simpl.
  destruct (positions "Adj Close" (columns fs) 0) as [|ja jas] eqn:Ha; [done|].
  simpl. intros [= <-]. exists (ja :: jas). split_and!; try done.
  - simpl. rewrite (has_column_lookup _ _ _ Hd), (has_column_lookup _ _ _ Ht).
    simpl. do 2 f_equal. rewrite app_nil_r.
    assert (∀ j, j ∈ ja :: jas → columns fs !! j = Some "Adj Close") as Hall.
    { intros j Hj. rewrite <-Ha in Hj. apply positions_lookup in Hj.
      by rewrite Nat.sub_0_r in Hj. }
    rewrite (Hall ja) by set_solver. simpl. f_equal.
    apply list_fmap_ext. intros i j Hj. rewrite (Hall j); [done|].
    right. by eapply list_elem_of_lookup_2.
  - simpl. by rewrite app_nil_r.
Qed.

Lemma prices_keyed jd jt fs P :
  keyed jd jt fs →
  getitems ["Date"; "Ticker"; "Adj Close"] fs = Ok P →
  keyed 0 1 P ∧ keys_of P = keys_of fs.
Proof.
  intros Hk HP. destruct (getitems_prices_inv _ _ _ _ Hk HP)
    as (jas & _ & _ & Hcols & Hrows).
  assert (∀ name, name ≠ "Adj Close" →
            positions name ((λ _ : nat, "Adj Close") <$> jas) 2 = []) as Hnone.
  { intros name Hne. apply positions_nil.
    intros (? & -> & _)%list_elem_of_fmap. done. }
  assert (keyed 0 1 P) as HP'.
  { split_and!.
    - rewrite Hcols. simpl. by rewrite Hnone.
    - rewrite Hcols. simpl. by rewrite Hnone.
    - rewrite Hrows. apply Forall_forall. intros r (r0 & -> & Hr0)%list_elem_of_fmap.
      destruct Hk as (_ & _ & Hall). rewrite Forall_forall in Hall.
      destruct (Hall r0 Hr0) as (t & s & ? & ?). exists t, s. by unfold cell. }
  split; [done|]. unfold keys_of. rewrite Hrows, <-list_fmap_compose.
  apply list_fmap_ext. intros i r _. simpl.
  rewrite (keyed_row_key _ _ _ _ HP'), (keyed_row_key _ _ _ _ Hk). done.
Qed.

Lemma anomaly_comparison_inv stock_df full_data_df p v :
  anomaly_comparison stock_df full_data_df p = Ok v →
  ∃ m1 m2 ov P1 P2 P3,
    filter_stock stock_df p = Ok (filtered_stock_df v)
    ∧ filter_anomalies full_data_df p (model_1 p) = Ok m1
    ∧ filter_anomalies full_data_df p (model_2 p) = Ok m2
    ∧ merge m1 m2 keys = Ok ov
    ∧ getitems ["Date"; "Ticker"; "Adj Close"] (filtered_stock_df v) = Ok P1
    ∧ getitems ["Date"; "Ticker"; "Adj Close"] (filtered_stock_df v) = Ok P2
    ∧ getitems ["Date"; "Ticker"; "Adj Close"] (filtered_stock_df v) = Ok P3
    ∧ merge m1 P1 keys = Ok (model_1_merged v)
    ∧ merge m2 P2 keys = Ok (model_2_merged v)
    ∧ merge ov P3 keys = Ok (overlapping_merged v).
Proof.
  unfold anomaly_comparison, with_price. intros Hv.
  apply bind_Ok in Hv as (fs & Hfs & Hv).
  apply bind_Ok in Hv as (m1 & Hm1 & Hv).
  apply bind_Ok in Hv as (m2 & Hm2 & Hv).
  apply bind_Ok in Hv as (ov & Hov & Hv).
  apply bind_Ok in Hv as (m1m & (P1 & HP1 & Hm1m)%bind_Ok & Hv).
  apply bind_Ok in Hv as (m2m & (P2 & HP2 & Hm2m)%bind_Ok & Hv).
  apply bind_Ok in Hv as (ovm & (P3 & HP3 & Hovm)%bind_Ok & Hv).
  injection Hv as <-. simpl. by exists m1, m2, ov, P1, P2, P3.
Qed.

(** The keys of the three joined tables, in terms of the keys of the two
    flag selections and of the filtered prices. *)
Lemma view_keys stock_df full_data_df p v :
  anomaly_comparison stock_df full_data_df p = Ok v →
  ∃ m1 m2,
    filter_anomalies full_data_df p (model_1 p) = Ok m1
    ∧ filter_anomalies full_data_df p (model_2 p) = Ok m2
    ∧ (∀ k, k ∈ keys_of (model_1_merged v) ↔
            k ∈ keys_of m1 ∧ k ∈ keys_of (filtered_stock_df v))
    ∧ (∀ k, k ∈ keys_of (model_2_merged v) ↔
            k ∈ keys_of m2 ∧ k ∈ keys_of (filtered_stock_df v))
    ∧ (∀ k, k ∈ keys_of (overlapping_merged v) ↔
            (k ∈ keys_of m1 ∧ k ∈ keys_of m2)
            ∧ k ∈ keys_of (filtered_stock_df v)).
Proof.
  intros (m1 & m2 & ov & P1 & P2 & P3 & Hfs & Hm1 & Hm2 & Hov & HP1 & HP2 & HP3
          & Hm1m & Hm2m & Hovm)%anomaly_comparison_inv.
  exists m1, m2. split; [done|]. split; [done|].
  destruct (filter_stock_keyed _ _ _ Hfs) as (jd & jt & Hkfs).
  destruct (filter_anomalies_keyed _ _ _ _ Hm1) as (jd1 & jt1 & Hk1).
  destruct (filter_anomalies_keyed _ _ _ _ Hm2) as (jd2 & jt2 & Hk2).
  destruct (prices_keyed _ _ _ _ Hkfs HP1) as [HkP1 HeP1].
  destruct (prices_keyed _ _ _ _ Hkfs HP2) as [HkP2 HeP2].
  destruct (prices_keyed _ _ _ _ Hkfs HP3) as [HkP3 HeP3].
  destruct (merge_keyed _ _ _ _ _ _ _ Hk1 Hk2 Hov) as [Hkov Hov_keys].
  destruct (merge_keyed _ _ _ _ _ _ _ Hk1 HkP1 Hm1m) as [_ H1].
  destruct (merge_keyed _ _ _ _ _ _ _ Hk2 HkP2 Hm2m) as [_ H2].
  destruct (merge_keyed _ _ _ _ _ _ _ Hkov HkP3 Hovm) as [_ H3].
  rewrite HeP1 in H1. rewrite HeP2 in H2. rewrite HeP3 in H3.
  split_and!; try done. intros k. by rewrite H3, Hov_keys.
Qed.

(** ** Key sequences of joins *)

Lemma keys_of_imap jd jt M J :
  positions "Date" (columns M) 0 = [jd] →
  positions "Ticker" (columns M) 0 = [jt] →
  rows M = imap mkRow J →
  keys_of M = cells_key jd jt <$> J.
Proof.
  intros Hd Ht Hrows. unfold keys_of. rewrite Hrows, fmap_imap.
  rewrite <-imap_const. apply imap_ext. intros i cs _. simpl.
  unfold row_key. by rewrite (get_cell _ _ _ _ Hd), (get_cell _ _ _ _ Ht).
Qed.

Lemma cells_key_app jd jt l extra t s :
  cell jd l = VTime t → cell jt l = VStr s →
  cells_key jd jt (cells l ++ extra) = (cell jd l, cell jt l).
Proof.
  intros Hd Ht. unfold cells_key.
  rewrite (lookup_app_l_Some _ _ _ (VTime t)) by by apply cell_is_Some.
  rewrite (lookup_app_l_Some _ _ _ (VStr s)) by by apply cell_is_Some.
  by rewrite Hd, Ht.
Qed.

Lemma inner_join_keys jd jt jd' jt' keep ls rs :
  Forall (λ l, ∃ t s, cell jd l = VTime t ∧ cell jt l = VStr s) ls →
  cells_key jd jt <$> inner_join [jd; jt] [jd'; jt'] keep ls rs
  = joined_keys ((λ l, (cell jd l, cell jt l)) <$> ls)
                ((λ r, (cell jd' r, cell jt' r)) <$> rs).
Proof.
  unfold inner_join, joined_keys.
  induction 1 as [|l ls (t & s & Hd & Ht) _ IH]; [done|].
  rewrite fmap_cons, !bind_cons, fmap_app, IH. f_equal. clear IH.
  induction rs as [|r rs IH]; [done|].
  rewrite fmap_cons. cbn [List.filter].
  replace (keys_match [jd; jt] [jd'; jt'] l r)
    with (same_key (cell jd l, cell jt l) (cell jd' r, cell jt' r))
    by (unfold keys_match, same_key; simpl; by rewrite andb_true_r).
  destruct (same_key _ _); [|done].
  rewrite !bind_cons, fmap_app, IH. f_equal. simpl.
  by rewrite (cells_key_app _ _ _ _ t s).
Qed.

Lemma keyed_keys_of jd jt df :
  keyed jd jt df → keys_of df = (λ r, (cell jd r, cell jt r)) <$> rows df.
Proof.
  intros Hk. unfold keys_of. apply list_fmap_ext. intros i r _.
  by apply keyed_row_key.
Qed.

(** The keys of a join, as a sequence. *)
Lemma keys_of_merge jd jt jd' jt' L R M :
  keyed jd jt L → keyed jd' jt' R → merge L R keys = Ok M →
  keys_of M = joined_keys (keys_of L) (keys_of R).
Proof.
  intros HL HR Hm.
  destruct (merge_keyed _ _ _ _ _ _ _ HL HR Hm) as [(HdM & HtM & _) _].
  destruct (merge_inv _ _ _ Hm) as (j1 & j2 & j3 & j4 & H1 & H2 & H3 & H4 & _ & Hrows).
  pose proof HL as (Hd & Ht & HLrows). pose proof HR as (Hd' & Ht' & _).
  rewrite Hd in H1. rewrite Ht in H2. rewrite Hd' in H3. rewrite Ht' in H4.
  injection H1 as <-. injection H2 as <-. injection H3 as <-. injection H4 as <-.
  rewrite (keys_of_imap _ _ _ _ HdM HtM Hrows).
  rewrite (keyed_keys_of _ _ _ HL), (keyed_keys_of _ _ _ HR).
  by apply inner_join_keys.
Qed.

Lemma keyed_proper jd jt df : keyed jd jt df → Forall proper_key (keys_of df).
Proof.
  intros Hk. rewrite (keyed_keys_of _ _ _ Hk).
  destruct Hk as (_ & _ & Hrows). apply Forall_fmap.
  eapply Forall_impl; [exact Hrows|]. intros r (t & s & Hd & Ht). simpl.
  exists t, s. by rewrite Hd, Ht.
Qed.

Lemma same_key_proper k k' :
  proper_key k → proper_key k' → same_key k k' = true ↔ k = k'.
Proof.
  intros (t & s & ->) (t' & s' & ->). unfold same_key. simpl.
  rewrite andb_true_iff, !bool_decide_eq_true. naive_solver.
Qed.

Lemma filter_same_key_unique ks k :
  NoDup ks → Forall proper_key ks → k ∈ ks →
  List.filter (same_key k) ks = [k].
Proof.
  intros Hnodup Hproper Hk.
  assert (proper_key k) as Hpk by (rewrite Forall_forall in Hproper; auto).
  induction Hnodup as [|k0 ks Hnotin Hnodup IH]; [by apply elem_of_nil in Hk|].
  apply Forall_cons in Hproper as [Hp0 Hproper]. cbn [List.filter].
  destruct (same_key k k0) eqn:Hsame.
  - apply same_key_proper in Hsame as <-; [|done..]. f_equal.
    clear IH Hk. induction ks as [|k1 ks IH]; [done|].
    apply Forall_cons in Hproper as [Hp1 Hproper].
    apply not_elem_of_cons in Hnotin as [Hne Hnotin].
    apply NoDup_cons in Hnodup as [_ Hnodup]. cbn [List.filter].
    destruct (same_key k k1) eqn:Hsame; [|by apply IH].
    by apply same_key_proper in Hsame.
  - apply IH; [done|]. apply elem_of_cons in Hk as [->|Hk]; [|done].
    assert (same_key k0 k0 = true) by by apply same_key_proper. congruence.
Qed.

Lemma joined_keys_self ks :
  NoDup ks → Forall proper_key ks → joined_keys ks ks = ks.
Proof.
  intros Hnodup Hproper. unfold joined_keys.
  rewrite (Forall_bind_ext _ (λ k, [k])).
  - induction ks as [|k ks' IH]; [done|].
    rewrite bind_cons. simpl. f_equal. apply IH.
    + by apply NoDup_cons in Hnodup as [_ ?].
    + by apply Forall_cons in Hproper as [_ ?].
  - apply Forall_forall. intros k Hk.
    by rewrite filter_same_key_unique.
Qed.

(** C2: on the key (Date, Ticker), the joined overlap table holds exactly
    the keys that occur in both joined model tables, so each of its keys
    occurs in both; and when the two selected models are the same it holds
    the same keys as the joined table of that model.  When, moreover, no
    key repeats among the rows selected for that model, the two tables
    list the same keys in the same order. *)
Theorem overlap_law stock_df full_data_df p v :
  computeView stock_df full_data_df p = Rendered v →
  (∀ k, k ∈ keys_of (overlapping_merged v) ↔
        k ∈ keys_of (model_1_merged v) ∧ k ∈ keys_of (model_2_merged v))
  ∧ (model_1 p = model_2 p →
     (∀ k, k ∈ keys_of (overlapping_merged v) ↔ k ∈ keys_of (model_1_merged v))
     ∧ ∀ m1, filter_anomalies full_data_df p (model_1 p) = Ok m1 →
         NoDup (keys_of m1) →
         keys_of (overlapping_merged v) = keys_of (model_1_merged v)).
Proof.
  intros [_ Hv]%computeView_Rendered.
  destruct (view_keys _ _ _ _ Hv) as (m1 & m2 & Hm1 & Hm2 & H1 & H2 & H3).
  split; [|intros Heq; split].
  - intros k. rewrite H1, H2, H3. naive_solver.
  - intros k. rewrite Heq, Hm2 in Hm1. injection Hm1 as ->.
    rewrite H1, H3. naive_solver.
  - intros m Hm Hnodup. clear H1 H2 H3.
    rewrite Hm in Hm1. injection Hm1 as <-.
    apply anomaly_comparison_inv in Hv
      as (m1 & m2' & ov & P1 & P2 & P3 & Hfs & Hm1 & Hm2' & Hov & HP1 & HP2 & HP3
          & Hm1m & Hm2m & Hovm).
    rewrite Hm in Hm1. injection Hm1 as <-.
    rewrite <-Heq, Hm in Hm2'. injection Hm2' as <-.
    rewrite HP1 in HP3. injection HP3 as <-.
    destruct (filter_stock_keyed _ _ _ Hfs) as (jd & jt & Hkfs).
    destruct (filter_anomalies_keyed _ _ _ _ Hm) as (jd1 & jt1 & Hk1).
    destruct (prices_keyed _ _ _ _ Hkfs HP1) as [HkP _].
    destruct (merge_keyed _ _ _ _ _ _ _ Hk1 Hk1 Hov) as [Hkov _].
    rewrite (keys_of_merge _ _ _ _ _ _ _ Hkov HkP Hovm).
    rewrite (keys_of_merge _ _ _ _ _ _ _ Hk1 HkP Hm1m).
    rewrite (keys_of_merge _ _ _ _ _ _ _ Hk1 Hk1 Hov).
    rewrite joined_keys_self; [done..|]. by eapply keyed_proper.
Qed.

(** ** Rows of a join *)

Lemma merge_rows jd jt jd' jt' L R M :
  keyed jd jt L → keyed jd' jt' R → merge L R keys = Ok M →
  ∀ m, m ∈ rows M →
    ∃ l r, l ∈ rows L ∧ r ∈ rows R
      ∧ row_key L l = row_key R r ∧ row_key M m = row_key L l
      ∧ cells m = cells l ++ ((λ j, cell j r) <$> (nonkey keys (columns R)).*1).
Proof.
  intros HL HR Hm m Hin.
  destruct (merge_keyed _ _ _ _ _ _ _ HL HR Hm) as [HM _].
  destruct (merge_inv _ _ _ Hm) as (j1 & j2 & j3 & j4 & H1 & H2 & H3 & H4 & _ & Hrows).
  pose proof HL as (Hd & Ht & HLrows). pose proof HR as (Hd' & Ht' & HRrows).
  rewrite Hd in H1. rewrite Ht in H2. rewrite Hd' in H3. rewrite Ht' in H4.
  injection H1 as <-. injection H2 as <-. injection H3 as <-. injection H4 as <-.
  rewrite Forall_forall in HLrows, HRrows.
  rewrite Hrows in Hin. apply elem_of_lookup_imap in Hin as (i & cs & -> & Hcs).
  apply list_elem_of_lookup_2, elem_of_inner_join in Hcs
    as (l & r & Hl & Hr & Hmatch & ->).
  destruct (HLrows l Hl) as (t & s & Hlt & Hls).
  destruct (HRrows r Hr) as (t' & s' & Hrt & Hrs).
  destruct (proj1 (keys_match_keyed _ _ _ _ _ _ _ _ _ _ Hlt Hls Hrt Hrs) Hmatch)
    as [Et Es].
  subst t' s'. exists l, r. split_and!; try done.
  - rewrite (keyed_row_key _ _ _ _ HL), (keyed_row_key _ _ _ _ HR). congruence.
  - rewrite (keyed_row_key _ _ _ _ HL), (keyed_row_key _ _ _ _ HM).
    rewrite (cell_app_l jd _ _ _ (VTime t)), (cell_app_l jt _ _ _ (VStr s))
      by by apply cell_is_Some.
    congruence.
Qed.

Lemma merge_well_formed L R M :
  well_formed L → merge L R keys = Ok M → well_formed M.
Proof.
  intros HL Hm.
  destruct (merge_inv _ _ _ Hm) as (j1 & j2 & j3 & j4 & _ & _ & _ & _ & Hcols & Hrows).
  unfold well_formed in *. rewrite Forall_forall in HL. apply Forall_forall.
  intros m Hin. rewrite Hrows in Hin.
  apply elem_of_lookup_imap in Hin as (i & cs & -> & Hcs).
  apply list_elem_of_lookup_2, elem_of_inner_join in Hcs
    as (l & r & Hl & _ & _ & ->).
  rewrite Hcols. unfold merged_columns. simpl.
  rewrite !length_app, !length_fmap. by rewrite (HL l Hl).
Qed.

Lemma filter_well_formed df (Q : Row → Prop) `{∀ r, Decision (Q r)} :
  well_formed df → well_formed (mkDF (columns df) (filter Q (rows df))).
Proof.
  unfold well_formed. simpl. rewrite !Forall_forall.
  intros Hwf r [_ Hr]%list_elem_of_filter. by apply Hwf.
Qed.

(** Joining with the price columns of a loaded, filtered price table. *)
Lemma with_price_attached jd jt ja jd' jt' an fs P M :
  keyed jd' jt' an → well_formed an →
  keyed jd jt fs → priced ja fs →
  getitems ["Date"; "Ticker"; "Adj Close"] fs = Ok P →
  merge an P keys = Ok M →
  price_attached fs M.
Proof.
  intros Han Hwf Hfs [Ha Hprices] HP HM.
  destruct (getitems_prices_inv _ _ _ _ Hfs HP) as (jas & Hjas & _ & Hcols & Hrows).
  rewrite Ha in Hjas. subst jas. simpl in Hcols, Hrows.
  destruct (prices_keyed _ _ _ _ Hfs HP) as [HkP HeP].
  assert (nonkey keys (columns P) = [(2, "Adj Close")]) as Hnk
    by by rewrite Hcols.
  split_and!.
  - by eapply merge_well_formed.
  - destruct (merge_inv _ _ _ HM) as (_ & _ & _ & _ & _ & _ & _ & _ & -> & _).
    unfold merged_columns. rewrite Hnk. simpl. rewrite last_snoc.
    unfold suffixed. case_bool_decide; [by right|by left].
  - intros m Hm.
    destruct (merge_rows _ _ _ _ _ _ _ Han HkP HM m Hm)
      as (l & r & Hl & Hr & Hlr & Hml & Hcells).
    rewrite Hrows in Hr. apply list_elem_of_fmap in Hr as (pr & -> & Hpr).
    rewrite Forall_forall in Hprices. destruct (Hprices pr Hpr) as [q Hq].
    exists pr, q. split_and!; try done.
    + rewrite Hml, Hlr. rewrite (keyed_row_key _ _ _ _ HkP), (keyed_row_key _ _ _ _ Hfs).
      done.
    + by rewrite (get_cell _ _ _ _ Ha).
    + rewrite Hcells, Hnk. simpl. rewrite last_snoc. unfold cell at 1. simpl.
      by rewrite Hq.
Qed.

Section joins.
Context `{Pandas}.

(** C7: each of the three anomaly tables of the view is inner-joined with
    the filtered prices on (Date, Ticker): its keys are those of the
    anomaly rows that have a filtered price row, so a row without one is
    dropped, and every joined row carries the Adj Close of a filtered price
    row with the same key, which is a number, never missing. *)
Theorem join_safety raw_prices raw_flags stock_df full_data_df p v :
  well_formed raw_prices → load_stock_df raw_prices = Ok stock_df →
  well_formed raw_flags → load_full_data_df raw_flags = Ok full_data_df →
  computeView stock_df full_data_df p = Rendered v →
  price_attached (filtered_stock_df v) (model_1_merged v)
  ∧ price_attached (filtered_stock_df v) (model_2_merged v)
  ∧ price_attached (filtered_stock_df v) (overlapping_merged v)
  ∧ ∃ m1 m2,
      filter_anomalies full_data_df p (model_1 p) = Ok m1
      ∧ filter_anomalies full_data_df p (model_2 p) = Ok m2
      ∧ (∀ k, k ∈ keys_of (model_1_merged v) ↔
              k ∈ keys_of m1 ∧ k ∈ keys_of (filtered_stock_df v))
      ∧ (∀ k, k ∈ keys_of (model_2_merged v) ↔
              k ∈ keys_of m2 ∧ k ∈ keys_of (filtered_stock_df v))
      ∧ (∀ k, k ∈ keys_of (overlapping_merged v) ↔
              (k ∈ keys_of m1 ∧ k ∈ keys_of m2)
              ∧ k ∈ keys_of (filtered_stock_df v)).
Proof.
  intros Hwfp Hlp Hwff Hlf [_ Hv]%computeView_Rendered.
  destruct (load_stock_df_loaded _ _ Hwfp Hlp)
    as (_ & jd & ja & _ & (Ha & Hprices)).
  destruct (load_full_data_df_loaded _ _ Hwff Hlf)
    as (_ & jd' & (_ & _ & _ & Hwf)).
  split_and!; [| | |by eapply view_keys].
  all: destruct (anomaly_comparison_inv _ _ _ _ Hv)
    as (m1 & m2 & ov & P1 & P2 & P3 & Hfs & Hm1 & Hm2 & Hov & HP1 & HP2 & HP3
        & Hm1m & Hm2m & Hovm).
  all: destruct (filter_stock_keyed _ _ _ Hfs) as (j1 & j2 & Hkfs).
  all: destruct (filter_anomalies_keyed _ _ _ _ Hm1) as (jd1 & jt1 & Hk1).
  all: destruct (filter_anomalies_keyed _ _ _ _ Hm2) as (jd2 & jt2 & Hk2).
  all: assert (well_formed m1 ∧ well_formed m2) as [Hwf1 Hwf2]
    by (apply filter_anomalies_inv in Hm1 as (? & ? & ? & _ & _ & _ & ->);
        apply filter_anomalies_inv in Hm2 as (? & ? & ? & _ & _ & _ & ->);
        split; by apply filter_well_formed).
  all: assert (priced ja (filtered_stock_df v)) as Hpr
    by (apply filter_stock_inv in Hfs as (? & ? & _ & _ & ->);
        split; [done|]; simpl; apply Forall_forall;
        intros r [_ Hr]%list_elem_of_filter;
        rewrite Forall_forall in Hprices; by apply Hprices).
  - exact (with_price_attached j1 j2 ja jd1 jt1 m1 _ P1 _ Hk1 Hwf1 Hkfs Hpr HP1 Hm1m).
  - exact (with_price_attached j1 j2 ja jd2 jt2 m2 _ P2 _ Hk2 Hwf2 Hkfs Hpr HP2 Hm2m).
  - destruct (merge_keyed _ _ _ _ _ _ _ Hk1 Hk2 Hov) as [Hkov _].
    refine (with_price_attached j1 j2 ja jd1 jt1 ov _ P3 _ Hkov _ Hkfs Hpr HP3 Hovm).
    exact (merge_well_formed _ _ _ Hwf1 Hov).
Qed.

End joins.

(** ** When a join is accepted *)

Lemma duplicated_fmap_inj (f : string → string) seen l :
  (∀ x y, x ∈ seen ++ l → y ∈ seen ++ l → f x = f y → x = y) →
  duplicated (f <$> seen) (f <$> l) = duplicated seen l.
Proof.
  revert seen. induction l as [|x l IH]; intros seen Hinj; [done|].
  rewrite fmap_cons. cbn [duplicated]. f_equal.
  - apply bool_decide_ext. rewrite list_elem_of_fmap. split.
    + intros (y & Hxy & Hy). apply Hinj in Hxy as ->; [done| |]; set_solver.
    + intros Hx. by exists x.
  - rewrite <-fmap_cons. apply IH. intros y z Hy Hz. apply Hinj; set_solver.
Qed.

Lemma suffix_dups_inj (f : string → string) l :
  (∀ x y, x ∈ l → y ∈ l → f x = f y → x = y) →
  suffix_dups l (f <$> l) = false.
Proof.
  intros Hinj. unfold suffix_dups.
  pose proof (duplicated_fmap_inj f [] l Hinj) as Hdup. rewrite fmap_nil in Hdup.
  rewrite Hdup. clear Hdup.
  induction (duplicated [] l) as [|b bs IH]; [done|].
  cbn [zip_with existsb]. unfold id at 1. by rewrite andb_negb_r.
Qed.

Lemma elem_of_nonkey_labels on cols c :
  c ∈ (nonkey on cols).*2 ↔ c ∈ cols ∧ c ∉ on.
Proof.
  split; [apply nonkey_labels|]. intros [[j Hj]%list_elem_of_lookup Hc].
  apply list_elem_of_fmap. exists (j, c). split; [done|]. by apply elem_of_nonkey.
Qed.

Lemma plain_key c : c ∈ keys → plain c.
Proof.
  unfold keys. rewrite !elem_of_cons, elem_of_nil.
  intros [-> | [-> | []]]; [apply plain_Date|apply plain_Ticker].
Qed.

Lemma suffixed_inj others suffix x y :
  suffix = "_x" ∨ suffix = "_y" →
  (x ∉ others → plain x) → (y ∉ others → plain y) →
  suffixed others suffix x = suffixed others suffix y → x = y.
Proof.
  intros Hs Hx Hy Hxy. unfold suffixed in Hxy at 1.
  case_bool_decide as Hxo.
  - unfold suffixed in Hxy. case_bool_decide as Hyo.
    + by apply append_inj_l in Hxy.
    + eapply (suffixed_not_plain [x] suffix x); [done|by apply Hy|].
      unfold suffixed. rewrite bool_decide_eq_true_2 by set_solver. done.
  - symmetry.
    eapply (suffixed_not_plain others suffix y x); [done|by apply Hx|done].
Qed.

Lemma merge_Ok jd jt jd' jt' L R :
  positions "Date" (columns L) 0 = [jd] →
  positions "Ticker" (columns L) 0 = [jt] →
  positions "Date" (columns R) 0 = [jd'] →
  positions "Ticker" (columns R) 0 = [jt'] →
  (∀ x y, x ∈ columns L → y ∈ columns L →
     suffixed (nonkey keys (columns R)).*2 "_x" x
     = suffixed (nonkey keys (columns R)).*2 "_x" y → x = y) →
  (∀ x y, x ∈ (nonkey keys (columns R)).*2 → y ∈ (nonkey keys (columns R)).*2 →
     suffixed (columns L) "_y" x = suffixed (columns L) "_y" y → x = y) →
  ∃ M, merge L R keys = Ok M.
Proof.
  intros Hd Ht Hd' Ht' Hx Hy. unfold merge.
  rewrite (key_positions_keys _ _ _ Hd Ht), (key_positions_keys _ _ _ Hd' Ht').
  simpl. rewrite !suffix_dups_inj by done. simpl. eauto.
Qed.

(** Two selections of rows of one table always join. *)
Lemma merge_same_columns_Ok jd jt L R :
  columns R = columns L →
  positions "Date" (columns L) 0 = [jd] →
  positions "Ticker" (columns L) 0 = [jt] →
  ∃ M, merge L R keys = Ok M.
Proof.
  intros Hcols Hd Ht. apply (merge_Ok jd jt jd jt); rewrite ?Hcols; try done.
  - intros x y Hx Hy. apply suffixed_inj; [by left| |].
    + intros Hn. apply plain_key. destruct (decide (x ∈ keys)); [done|].
      exfalso. apply Hn. by apply elem_of_nonkey_labels.
    + intros Hn. apply plain_key. destruct (decide (y ∈ keys)); [done|].
      exfalso. apply Hn. by apply elem_of_nonkey_labels.
  - intros x y [Hx _]%nonkey_labels [Hy _]%nonkey_labels.
    apply suffixed_inj; [by right|done..].
Qed.

(** Joining with the three price columns is accepted unless the left
    frame has both an [Adj Close] and an [Adj Close_x] column. *)
Lemma merge_prices_Ok jd jt L P :
  positions "Date" (columns L) 0 = [jd] →
  positions "Ticker" (columns L) 0 = [jt] →
  columns P = ["Date"; "Ticker"; "Adj Close"] →
  ¬ ("Adj Close" ∈ columns L ∧ "Adj Close_x" ∈ columns L) →
  ∃ M, merge L P keys = Ok M.
Proof.
  intros Hd Ht Hcols Hadj. apply (merge_Ok jd jt 0 1); rewrite ?Hcols; try done.
  - change (nonkey keys ["Date"; "Ticker"; "Adj Close"]).*2 with ["Adj Close"].
    intros x y Hx Hy. unfold suffixed.
    do 2 case_bool_decide; try done.
    + by apply append_inj_l.
    + intros <-. exfalso. apply Hadj. set_solver.
    + intros ->. exfalso. apply Hadj. set_solver.
  - change (nonkey keys ["Date"; "Ticker"; "Adj Close"]).*2 with ["Adj Close"].
    set_solver.
Qed.

(** ** When the page renders *)

Lemma getitems_prices_Ok jd jt ja fs :
  positions "Date" (columns fs) 0 = [jd] →
  positions "Ticker" (columns fs) 0 = [jt] →
  positions "Adj Close" (columns fs) 0 = [ja] →
  ∃ P, getitems ["Date"; "Ticker"; "Adj Close"] fs = Ok P
       ∧ columns P = ["Date"; "Ticker"; "Adj Close"].
Proof.
  intros Hd Ht Ha. unfold getitems. simpl. rewrite Hd, Ht, Ha. simpl.
  eexists. split; [done|]. simpl.
  by rewrite (has_column_lookup _ _ _ Hd), (has_column_lookup _ _ _ Ht),
    (has_column_lookup _ _ _ Ha).
Qed.

Lemma merged_columns_no_price L R :
  columns R = columns L →
  "Adj Close" ∉ merged_columns L R.
Proof.
  intros Hcols. unfold merged_columns. rewrite Hcols.
  rewrite elem_of_app, !list_elem_of_fmap.
  intros [(c & Hc & Hin) | (c & Hc & Hin)]; unfold suffixed in Hc.
  - case_bool_decide as Hnk.
    + apply (f_equal (λ s, last (chars s))) in Hc.
      rewrite (last_chars_app c "_x" "x"%char) in Hc by done. done.
    + subst c. apply Hnk, elem_of_nonkey_labels. split; [done|].
      unfold keys. set_solver.
  - apply nonkey_labels in Hin as [Hin _].
    rewrite bool_decide_eq_true_2 in Hc by done.
    apply (f_equal (λ s, last (chars s))) in Hc.
    rewrite (last_chars_app c "_y" "y"%char) in Hc by done. done.
Qed.

Lemma anomaly_comparison_Ok stock_df full_data_df p :
  base_columns stock_df full_data_df →
  has_column (columns full_data_df) (model_1 p) →
  has_column (columns full_data_df) (model_2 p) →
  ∃ v, anomaly_comparison stock_df full_data_df p = Ok v.
Proof.
  intros ([jd Hd] & [jt Ht] & [ja Ha] & [jd' Hd'] & [jt' Ht'] & Hadj)
    [j1 H1] [j2 H2].
  unfold anomaly_comparison, with_price.
  rewrite (filter_stock_Ok _ _ _ _ Hd Ht).
  rewrite (filter_anomalies_Ok _ _ _ _ _ _ Hd' Ht' H1).
  rewrite (filter_anomalies_Ok _ _ _ _ _ _ Hd' Ht' H2).
  cbn [mbind result_bind].
  set (fs := mkDF (columns stock_df) _).
  set (m1 := mkDF (columns full_data_df)
    (filter (λ r, in_window full_data_df p r ∧ flagged full_data_df (model_1 p) r) _)).
  set (m2 := mkDF (columns full_data_df)
    (filter (λ r, in_window full_data_df p r ∧ flagged full_data_df (model_2 p) r) _)).
  destruct (merge_same_columns_Ok jd' jt' m1 m2) as [ov Hov]; [done..|].
  rewrite Hov. cbn [mbind result_bind].
  destruct (getitems_prices_Ok jd jt ja fs) as (P & HP & HPcols); [done..|].
  rewrite HP. cbn [mbind result_bind].
  destruct (merge_prices_Ok jd' jt' m1 P) as [m1m ->]; [done..|].
  destruct (merge_prices_Ok jd' jt' m2 P) as [m2m ->]; [done..|].
  cbn [mbind result_bind].
  destruct (merge_inv _ _ _ Hov) as (_ & _ & _ & _ & _ & _ & _ & _ & Hcols & _).
  assert (keyed jd' jt' m1 ∧ keyed jd' jt' m2) as [Hk1 Hk2].
  { split; by apply filter_window_keyed. }
  destruct (merge_keyed _ _ _ _ _ _ _ Hk1 Hk2 Hov) as [(Hdo & Hto & _) _].
  destruct (merge_prices_Ok jd' jt' ov P) as [ovm ->]; [done..| |].
  { rewrite Hcols. intros [Hin _]. by apply merged_columns_no_price in Hin. }
  cbn [mbind result_bind]. eauto.
Qed.

Lemma computeView_Ok stock_df full_data_df p :
  base_columns stock_df full_data_df →
  has_column (columns full_data_df) (model_1 p) →
  has_column (columns full_data_df) (model_2 p) →
  (start_date p ≤ end_date p)%Z →
  ∃ v, computeView stock_df full_data_df p = Rendered v.
Proof.
  intros Hb H1 H2 Hrange.
  destruct (anomaly_comparison_Ok _ _ p Hb H1 H2) as [v Hv].
  exists v. unfold computeView. rewrite bool_decide_eq_false_2 by lia.
  rewrite (anomaly_comparison_filtered _ _ _ _ Hv). simpl. by rewrite Hv.
Qed.

Lemma keys_of_nil df : keys_of df = [] → rows df = [].
Proof. unfold keys_of. apply fmap_nil_inv. Qed.

Lemma no_keys df : (∀ k, k ∉ keys_of df) → rows df = [].
Proof.
  intros Hk. apply keys_of_nil. destruct (keys_of df) as [|k ks]; [done|].
  destruct (Hk k). by left.
Qed.

(** C4: when the start date is after the end date the page shows the
    range error and computes no table, whatever the tables are; when the
    two dates are equal the page renders, and every row of the filtered
    price table carries the timestamp of that day. *)
Theorem range_guard stock_df full_data_df p :
  ((end_date p < start_date p)%Z →
   computeView stock_df full_data_df p
   = StError "Error: Start Date must be before End Date.")
  ∧ (start_date p = end_date p →
     base_columns stock_df full_data_df →
     has_column (columns full_data_df) (model_1 p) →
     has_column (columns full_data_df) (model_2 p) →
     ∃ v, computeView stock_df full_data_df p = Rendered v
          ∧ ∀ r, r ∈ rows (filtered_stock_df v) →
              r ∈ rows stock_df
              ∧ get (filtered_stock_df v) "Date" r
                = VTime (Timestamp (start_date p))).
Proof.
  split.
  - intros Hlt. unfold computeView. by rewrite bool_decide_eq_true_2.
  - intros Heq Hb H1 H2.
    destruct (computeView_Ok _ _ p Hb H1 H2) as [v Hv]; [lia|].
    exists v. split; [done|]. intros r Hr.
    apply computeView_Rendered in Hv as [_ Hv%anomaly_comparison_filtered].
    destruct (filter_stock_inv _ _ _ Hv) as (jd & jt & Hd & Ht & Hfs).
    rewrite Hfs in Hr |- *. simpl in Hr.
    apply list_elem_of_filter in Hr as [Hw Hr]. split; [done|].
    destruct (in_window_cells _ _ _ _ _ Hd Ht Hw) as (t & Hcell & _ & Hrange).
    rewrite (get_cell _ _ jd) by done. rewrite Hcell. f_equal.
    rewrite <-Heq in Hrange. lia.
Qed.

(** ** What the page shows *)

Lemma page_Rendered stock_df full_data_df p w v :
  widgets stock_df = Ok w →
  computeView stock_df full_data_df p = Rendered v →
  page stock_df full_data_df p
  = mkPage [stock_prices_tab (filtered_stock_df v); anomaly_tab v] None.
Proof.
  intros Hw [Hrange Hv]%computeView_Rendered. unfold page. rewrite Hw.
  rewrite bool_decide_eq_false_2 by lia.
  rewrite (anomaly_comparison_filtered _ _ _ _ Hv). by rewrite Hv.
Qed.

Lemma empty_no_rows df : rows df = [] → empty df = true.
Proof. unfold empty. by intros ->. Qed.

Lemma computeView_empty stock_df full_data_df p v :
  computeView stock_df full_data_df p = Rendered v →
  (∀ r, r ∈ rows stock_df → ¬ in_window stock_df p r) →
  rows (filtered_stock_df v) = []
  ∧ rows (model_1_merged v) = []
  ∧ rows (model_2_merged v) = []
  ∧ rows (overlapping_merged v) = [].
Proof.
  intros [_ Hv]%computeView_Rendered Hnone.
  assert (rows (filtered_stock_df v) = []) as Hfs.
  { destruct (filter_stock_inv _ _ _ (anomaly_comparison_filtered _ _ _ _ Hv))
      as (jd & jt & _ & _ & ->). simpl.
    apply elem_of_nil_inv. intros r [Hw Hr]%list_elem_of_filter.
    by apply (Hnone r). }
  destruct (view_keys _ _ _ _ Hv) as (m1 & m2 & _ & _ & K1 & K2 & K3).
  assert (∀ k, k ∉ keys_of (filtered_stock_df v)) as Hk.
  { intros k. unfold keys_of. rewrite Hfs. apply not_elem_of_nil. }
  split; [done|]. split_and!; apply no_keys.
  - intros k [_ Hin]%K1. by apply (Hk k).
  - intros k [_ Hin]%K2. by apply (Hk k).
  - intros k [_ Hin]%K3. by apply (Hk k).
Qed.

(** C8, as the code has it: when no price row lies in the window with
    the selected ticker, nothing raises and the filtered price table and
    the three joined anomaly tables are computed and are all empty; the
    page draws no chart and reports the emptiness with [st.error], once
    in the first tab and once in the second. *)
Theorem empty_view stock_df full_data_df p w :
  widgets stock_df = Ok w →
  base_columns stock_df full_data_df →
  has_column (columns full_data_df) (model_1 p) →
  has_column (columns full_data_df) (model_2 p) →
  (start_date p ≤ end_date p)%Z →
  (∀ r, r ∈ rows stock_df → ¬ in_window stock_df p r) →
  ∃ v, computeView stock_df full_data_df p = Rendered v
       ∧ rows (filtered_stock_df v) = []
       ∧ rows (model_1_merged v) = []
       ∧ rows (model_2_merged v) = []
       ∧ rows (overlapping_merged v) = []
       ∧ page stock_df full_data_df p
         = mkPage [st_error no_data; st_error no_data] None.
Proof.
  intros Hw Hb H1 H2 Hrange Hnone.
  destruct (computeView_Ok _ _ p Hb H1 H2 Hrange) as [v Hv].
  destruct (computeView_empty _ _ _ _ Hv Hnone) as (Hfs & E1 & E2 & E3).
  exists v. split_and!; try done.
  rewrite (page_Rendered _ _ _ _ _ Hw Hv).
  unfold stock_prices_tab, anomaly_tab. by rewrite (empty_no_rows _ Hfs).
Qed.

(** ** Model names are column labels *)



(** ** Which raw rows survive loading *)

Lemma label_kept {B} (f : Row * B → option Row) rs (ps : list B) i r b :
  (∀ x y, f x = Some y → label y = label x.1) →
  NoDup (label <$> rs) → rs !! i = Some r → ps !! i = Some b →
  label r ∈ (label <$> omap f (zip rs ps)) ↔ is_Some (f (r, b)).
Proof.
  intros Hlabel Hnodup Hr Hb. rewrite list_elem_of_fmap. split.
  - intros (y & Hy & (x & Hx & Hfx)%list_elem_of_omap).
    apply list_elem_of_lookup in Hx as [i' Hx].
    apply lookup_zip2 in Hx as [Hr' Hb'].
    assert (i' = i) as ->.
    { eapply NoDup_lookup; [exact Hnodup| |].
      - rewrite list_lookup_fmap, Hr'. simpl. reflexivity.
      - rewrite list_lookup_fmap, Hr. simpl. f_equal.
        rewrite Hy. by apply Hlabel in Hfx. }
    destruct x as [r' b']. simpl in *. simplify_eq. by exists y.
  - intros [y Hy]. exists y. split; [symmetry; by apply Hlabel in Hy|].
    apply list_elem_of_omap. exists (r, b). split; [|done].
    apply list_elem_of_lookup. exists i. by apply lookup_zip2.
Qed.

Section loader_claims.
Context `{Pandas}.

(** C5: loading never raises over a missing or unparseable cell.  The
    loaded price table holds exactly the raw rows whose Date and Adj Close
    both parse, with the parsed values in place, and the loaded anomaly
    table exactly the raw rows whose Date parses; a row with a failed
    parse is absent from the result; and both results are ascending by
    Date. *)
Theorem silent_drop raw :
  well_formed raw →
  (∀ jd ja,
     positions "Date" (strip <$> columns raw) 0 = [jd] →
     positions "Adj Close" (strip <$> columns raw) 0 = [ja] →
     ∃ df, load_stock_df raw = Ok df
       ∧ rows df ≡ₚ omap (parsed_stock_row jd ja) (stock_parses raw jd ja)
       ∧ StronglySorted (date_le jd) (rows df)
       ∧ (NoDup (label <$> rows raw) →
          ∀ i r d n, rows raw !! i = Some r →
            to_datetime (cell jd <$> rows raw) !! i = Some d →
            to_numeric (cell ja <$> rows raw) !! i = Some n →
            label r ∈ (label <$> rows df) ↔ is_Some d ∧ is_Some n))
  ∧ (∀ jd,
     positions "Date" (strip <$> columns raw) 0 = [jd] →
     ∃ df, load_full_data_df raw = Ok df
       ∧ rows df ≡ₚ omap (parsed_full_row jd) (full_parses raw jd)
       ∧ StronglySorted (date_le jd) (rows df)
       ∧ (NoDup (label <$> rows raw) →
          ∀ i r d, rows raw !! i = Some r →
            to_datetime (cell jd <$> rows raw) !! i = Some d →
            label r ∈ (label <$> rows df) ↔ is_Some d)).
Proof.
  intros Hwf. split.
  - intros jd ja Hd Ha.
    destruct (load_stock_df_rows raw jd ja Hwf Hd Ha) as (rs & Hload & Hperm & _).
    exists (mkDF (strip <$> columns raw) rs). split; [done|]. split; [done|].
    destruct (load_stock_df_loaded _ _ Hwf Hload)
      as (_ & jd0 & ja0 & (Hd0 & _ & Hsorted & _) & _).
    simpl in Hd0. rewrite Hd in Hd0. injection Hd0 as <-.
    split; [done|]. intros Hnodup i r d n Hr Hdi Hni. simpl.
    rewrite Hperm. unfold stock_parses.
    rewrite (label_kept _ _ _ i r (d, n)); try done.
    + unfold parsed_stock_row. simpl. destruct d, n; simpl;
        rewrite ?is_Some_alt; naive_solver.
    + intros x y. apply label_parsed_stock_row.
    + by apply lookup_zip2.
  - intros jd Hd.
    destruct (load_full_data_df_rows raw jd Hwf Hd) as (rs & Hload & Hperm & _).
    exists (mkDF (strip <$> columns raw) rs). split; [done|]. split; [done|].
    destruct (load_full_data_df_loaded _ _ Hwf Hload)
      as (_ & jd0 & (Hd0 & _ & Hsorted & _)).
    simpl in Hd0. rewrite Hd in Hd0. injection Hd0 as <-.
    split; [done|]. intros Hnodup i r d Hr Hdi. simpl.
    rewrite Hperm. unfold full_parses.
    rewrite (label_kept _ _ _ i r d); try done.
    + unfold parsed_full_row. simpl. destruct d; simpl;
        rewrite ?is_Some_alt; naive_solver.
    + intros x y. apply label_parsed_full_row.
Qed.

End loader_claims.

(** ** Stripping header labels *)

Lemma blank_cons c s : blank (String c s) ↔ isspace c = true ∧ blank s.
Proof.
  unfold blank. simpl. destruct (isspace c); naive_solver.
Qed.

Lemma lstrip_blank_app l s : blank l → lstrip (l +:+ s) = lstrip s.
Proof.
  induction l as [|c l IH]; [done|].
  intros [Hc Hl]%blank_cons. rewrite append_cons. simpl. rewrite Hc. by apply IH.
Qed.

Lemma blank_app a b : blank a → blank b → blank (a +:+ b).
Proof. intros Ha Hb. unfold blank. by rewrite lstrip_blank_app. Qed.

Lemma lstrip_length s : String.length (lstrip s) ≤ String.length s.
Proof.
  induction s as [|c s IH]; simpl; [done|]. destruct (isspace c); simpl; lia.
Qed.

Lemma lstrip_fixed_app name r :
  lstrip name = name → name ≠ "" → lstrip (name +:+ r) = name +:+ r.
Proof.
  destruct name as [|c n]; [done|]. intros Hfix _.
  rewrite append_cons. simpl in *. destruct (isspace c); [|done].
  pose proof (lstrip_length n) as Hlen. rewrite Hfix in Hlen. simpl in Hlen. lia.
Qed.

Lemma rev_app_spec s acc : String.rev_app s acc = String.rev s +:+ acc.
Proof.
  unfold String.rev. revert acc. induction s as [|c s IH]; intros acc; [done|].
  simpl. rewrite (IH (String c acc)), (IH (String c "")).
  by rewrite append_assoc.
Qed.

Lemma rev_cons c s : String.rev (String c s) = String.rev s +:+ String c "".
Proof. unfold String.rev at 1. simpl. apply rev_app_spec. Qed.

Lemma rev_append a b : String.rev (a +:+ b) = String.rev b +:+ String.rev a.
Proof.
  induction a as [|c a IH].
  - by rewrite append_nil_l, append_nil_r.
  - by rewrite append_cons, !rev_cons, IH, append_assoc.
Qed.

Lemma blank_rev r : blank r → blank (String.rev r).
Proof.
  induction r as [|c r IH]; [done|].
  intros [Hc Hr]%blank_cons. rewrite rev_cons. apply blank_app; [by apply IH|].
  by apply blank_cons.
Qed.

Lemma rstrip_app_blank s r : blank r → rstrip (s +:+ r) = rstrip s.
Proof.
  intros Hr. unfold rstrip. rewrite rev_append.
  by rewrite lstrip_blank_app by by apply blank_rev.
Qed.

(** [strip] removes the whitespace written around a name. *)
Lemma strip_padded name written : padded name written → strip written = name.
Proof.
  intros (l & r & Hl & Hr & [Hleft Hright] & ->). unfold strip.
  rewrite lstrip_blank_app by done.
  destruct (decide (name = "")) as [->|Hne].
  - rewrite append_nil_l. unfold blank in Hr. by rewrite Hr.
  - rewrite lstrip_fixed_app by done. by rewrite rstrip_app_blank.
Qed.

Lemma strip_columns names written :
  Forall2 padded names written → strip <$> written = names.
Proof.
  induction 1 as [|name w names ws Hp _ IH]; [done|].
  rewrite fmap_cons. f_equal; [by apply strip_padded|done].
Qed.

Section headers.
Context `{Pandas}.

Lemma load_stock_df_Ok raw jd ja :
  positions "Date" (strip <$> columns raw) 0 = [jd] →
  positions "Adj Close" (strip <$> columns raw) 0 = [ja] →
  ∃ df, load_stock_df raw = Ok df ∧ columns df = strip <$> columns raw.
Proof.
  intros Hd Ha. unfold load_stock_df, getitem, dropna. cbn [columns setitem rows].
  rewrite Hd. cbn [mbind result_bind]. rewrite Ha. cbn [mbind result_bind].
  cbn [subset_positions]. rewrite Hd, Ha.
  cbn [mbind result_bind mret result_ret app columns].
  rewrite Hd. cbn [mbind result_bind mret result_ret columns rows]. eauto.
Qed.

Lemma load_full_data_df_Ok raw jd :
  positions "Date" (strip <$> columns raw) 0 = [jd] →
  ∃ df, load_full_data_df raw = Ok df ∧ columns df = strip <$> columns raw.
Proof.
  intros Hd. unfold load_full_data_df, getitem, dropna. cbn [columns setitem rows].
  rewrite Hd. cbn [mbind result_bind subset_positions]. rewrite Hd.
  cbn [mbind result_bind mret result_ret app columns].
  rewrite Hd. cbn [mbind result_bind mret result_ret columns rows]. eauto.
Qed.

Lemma window_mask_KeyError_Ticker df p jd :
  positions "Date" (columns df) 0 = [jd] →
  "Ticker" ∉ columns df →
  window_mask df p = Raise (KeyError "Ticker").
Proof.
  intros Hd Ht. unfold window_mask.
  rewrite (proj2 (getitem_Ok _ _ _ _) Hd). cbn [mbind result_bind].
  by rewrite (getitem_KeyError _ _ _ Ht).
Qed.

(** C6, as the code has it: header matching ignores whitespace written
    around a label and nothing else.  When the labels of the file are the
    names [names] with whitespace around them, the loaders see exactly
    [names].  They read [Date] (and, for prices, [Adj Close]): they
    succeed when it is among the names once, and raise [KeyError] when it
    is not among them, as for a label that differs in letter case.  They
    do not read [Ticker] or a model column: when that name is not among
    the names the loaders succeed all the same, and every filter of the
    loaded table raises [KeyError] for it. *)
Theorem header_matching raw names :
  Forall2 padded names (columns raw) →
  strip <$> columns raw = names
  ∧ (has_column names "Date" → has_column names "Adj Close" →
     ∃ df, load_stock_df raw = Ok df ∧ columns df = names)
  ∧ (has_column names "Date" →
     ∃ df, load_full_data_df raw = Ok df ∧ columns df = names)
  ∧ ("Date" ∉ names →
     load_stock_df raw = Raise (KeyError "Date")
     ∧ load_full_data_df raw = Raise (KeyError "Date"))
  ∧ (has_column names "Date" → "Adj Close" ∉ names →
     load_stock_df raw = Raise (KeyError "Adj Close"))
  ∧ (has_column names "Date" → has_column names "Adj Close" →
     "Ticker" ∉ names →
     ∃ df, load_stock_df raw = Ok df
           ∧ ∀ p, filter_stock df p = Raise (KeyError "Ticker"))
  ∧ (has_column names "Date" → "Ticker" ∉ names →
     ∃ df, load_full_data_df raw = Ok df
           ∧ ∀ p model, filter_anomalies df p model = Raise (KeyError "Ticker"))
  ∧ (has_column names "Date" → has_column names "Ticker" →
     ∀ model, model ∉ names →
     ∃ df, load_full_data_df raw = Ok df
           ∧ ∀ p, filter_anomalies df p model = Raise (KeyError model)).
Proof.
  intros Hpad%strip_columns. split; [done|]. split_and!.
  - intros [jd Hd] [ja Ha]. rewrite <-Hpad in Hd, Ha |- *.
    by apply (load_stock_df_Ok raw jd ja).
  - intros [jd Hd]. rewrite <-Hpad in Hd |- *.
    by apply (load_full_data_df_Ok raw jd).
  - intros Hno. rewrite <-Hpad in Hno.
    apply (positions_nil _ _ 0) in Hno.
    unfold load_stock_df, load_full_data_df, getitem. cbn [columns].
    by rewrite Hno.
  - intros [jd Hd] Hno. rewrite <-Hpad in Hd, Hno.
    apply (positions_nil _ _ 0) in Hno.
    unfold load_stock_df, getitem. cbn [columns setitem].
    rewrite Hd. cbn [mbind result_bind]. by rewrite Hno.
  - intros [jd Hd] [ja Ha] Hno. rewrite <-Hpad in Hd, Ha, Hno.
    destruct (load_stock_df_Ok raw jd ja Hd Ha) as (df & Hdf & Hcols).
    exists df. split; [done|]. intros p. unfold filter_stock.
    rewrite <-Hcols in Hd, Hno.
    by rewrite (window_mask_KeyError_Ticker _ _ _ Hd Hno).
  - intros [jd Hd] Hno. rewrite <-Hpad in Hd, Hno.
    destruct (load_full_data_df_Ok raw jd Hd) as (df & Hdf & Hcols).
    exists df. split; [done|]. intros p model. unfold filter_anomalies.
    rewrite <-Hcols in Hd, Hno.
    by rewrite (window_mask_KeyError_Ticker _ _ _ Hd Hno).
  - intros [jd Hd] [jt Ht] model Hno. rewrite <-Hpad in Hd, Ht, Hno.
    destruct (load_full_data_df_Ok raw jd Hd) as (df & Hdf & Hcols).
    exists df. split; [done|]. intros p.
    rewrite <-Hcols in Hd, Ht, Hno.
    by apply (filter_anomalies_KeyError _ _ _ jd jt).
Qed.

End headers.

(** * The statements on the example tables *)

Lemma example_well_formed :
  well_formed Example.raw_prices ∧ well_formed Example.raw_flags.
Proof. split; by repeat constructor. Qed.

Lemma example_loaded :
  @load_stock_df Reference.pandas Example.raw_prices = Ok Example.stock_df
  ∧ @load_full_data_df Reference.pandas Example.raw_flags = Ok Example.full_data_df.
Proof. split; by vm_compute. Qed.

Lemma example_base_columns :
  base_columns Example.stock_df Example.full_data_df.
Proof.
  split_and!; [by exists 0|by exists 1|by exists 2|by exists 0|by exists 1|].
  intros [Hin _]. revert Hin. apply (bool_decide_unpack _). by vm_compute.
Qed.

Lemma example_model_columns :
  has_column (columns Example.full_data_df) "baseline"
  ∧ has_column (columns Example.full_data_df) "svm"
  ∧ has_column (columns Example.full_data_df) "foo".
Proof. split_and!; [by exists 2|by exists 3|by exists 4]. Qed.

(** The filtered prices of the example, for 2024-01-01 to 2024-01-02 and
    ticker ABC: the raw rows 2 and 0, in date order. *)
Lemma filtered_prices_exact_witness :
  ∃ filtered jd,
    filter_stock Example.stock_df Example.params = Ok filtered
    ∧ label <$> rows filtered = [2; 0]
    ∧ StronglySorted (date_le jd) (rows filtered).
Proof.
  destruct (filtered_prices_exact (H := Reference.pandas)
              Example.raw_prices Example.stock_df Example.params)
    as (filtered & jd & Hf & _ & Hrows & _ & Hsorted & _).
  - apply example_well_formed.
  - apply example_loaded.
  - by exists 1.
  - exists filtered, jd. split_and!; [done| |done]. rewrite Hrows. by vm_compute.
Defined.

(** The rows flagged by [baseline] there: raw row 0 only. *)
Lemma flag_equals_one_witness :
  ∃ anomalies,
    filter_anomalies Example.full_data_df Example.params "baseline" = Ok anomalies
    ∧ label <$> rows anomalies = [0].
Proof.
  destruct (flag_equals_one Example.full_data_df Example.params "baseline")
    as (anomalies & Ha & Hrows & _).
  - by exists 0.
  - by exists 1.
  - by exists 2.
  - exists anomalies. split; [done|]. rewrite Hrows. by vm_compute.
Defined.

(** With [baseline] selected twice, overlap and model table list the same
    keys. *)
Lemma overlap_law_witness :
  ∃ v, computeView Example.stock_df Example.full_data_df Example.params_same_model
       = Rendered v
     ∧ (∀ k, k ∈ keys_of (overlapping_merged v) ↔ k ∈ keys_of (model_1_merged v))
     ∧ keys_of (overlapping_merged v) = keys_of (model_1_merged v).
Proof.
  assert (∃ v, computeView Example.stock_df Example.full_data_df
                 Example.params_same_model = Rendered v) as [v Hv]
    by (vm_compute; eauto).
  exists v. split; [done|].
  destruct (overlap_law Example.stock_df Example.full_data_df
              Example.params_same_model v Hv) as [_ Hsame].
  destruct (Hsame eq_refl) as [Hset Hseq]. split; [done|].
  eapply Hseq; [by vm_compute|]. vm_compute.
  repeat (constructor; [rewrite ?elem_of_cons, elem_of_nil; naive_solver|]).
  constructor.
Defined.

Lemma join_safety_witness :
  ∃ v, computeView Example.stock_df Example.full_data_df Example.params
       = Rendered v
     ∧ price_attached (filtered_stock_df v) (model_1_merged v)
     ∧ price_attached (filtered_stock_df v) (overlapping_merged v).
Proof.
  assert (∃ v, computeView Example.stock_df Example.full_data_df
                 Example.params = Rendered v) as [v Hv]
    by (vm_compute; eauto).
  exists v. split; [done|].
  destruct (join_safety (H := Reference.pandas)
              Example.raw_prices Example.raw_flags
              Example.stock_df Example.full_data_df Example.params v)
    as (H1 & _ & H3 & _).
  - apply example_well_formed.
  - apply example_loaded.
  - apply example_well_formed.
  - apply example_loaded.
  - done.
  - by split.
Defined.

Lemma range_guard_witness :
  computeView Example.stock_df Example.full_data_df Example.params_reversed
  = StError "Error: Start Date must be before End Date."
  ∧ ∃ v, computeView Example.stock_df Example.full_data_df Example.params_one_day
         = Rendered v
       ∧ ∀ r, r ∈ rows (filtered_stock_df v) →
           get (filtered_stock_df v) "Date" r
           = VTime (Timestamp (Example.day 2024 1 2)).
Proof.
  split.
  - by apply (range_guard Example.stock_df Example.full_data_df
                Example.params_reversed).
  - destruct (range_guard Example.stock_df Example.full_data_df
                Example.params_one_day) as [_ Hsame].
    destruct Hsame as (v & Hv & Hrows).
    + done.
    + apply example_base_columns.
    + apply example_model_columns.
    + apply example_model_columns.
    + exists v. split; [done|]. intros r Hr. by apply Hrows.
Defined.

(** The widgets of the two-ticker example offer XYZ, and the page can be
    asked for XYZ on the first two days. *)
Lemma example_gap_offered :
  ∃ w, widgets Example.stock_df_two = Ok w ∧ offered w Example.params_gap.
Proof.
  eexists. split; [by vm_compute|]. unfold offered. simpl.
  split_and!; [rewrite !elem_of_cons; auto|..];
    apply (bool_decide_unpack _); by vm_compute.
Qed.

Lemma empty_view_witness :
  ∃ v, computeView Example.stock_df_two Example.full_data_df Example.params_gap
       = Rendered v
     ∧ rows (filtered_stock_df v) = []
     ∧ rows (overlapping_merged v) = []
     ∧ shown (page Example.stock_df_two Example.full_data_df Example.params_gap)
       = [st_error no_data; st_error no_data].
Proof.
  destruct example_gap_offered as (w & Hw & _).
  destruct (empty_view Example.stock_df_two Example.full_data_df
              Example.params_gap w Hw) as (v & Hv & Hfs & _ & _ & Hov & Hpage).
  - split_and!; [by exists 0|by exists 1|by exists 2|by exists 0|by exists 1|].
    intros [Hin _]. revert Hin. apply (bool_decide_unpack _). by vm_compute.
  - apply example_model_columns.
  - apply example_model_columns.
  - by vm_compute.
  - apply Forall_forall. apply (bool_decide_unpack _). by vm_compute.
  - exists v. split_and!; [done..|]. by rewrite Hpage.
Defined.

(** Against C8 as stated: in the two-ticker example the select box
    offers XYZ, the range is valid, and no price of XYZ lies in the first
    two days.  Nothing raises, and the page reports the empty window with
    [st.error], the call it also uses for the invalid range. *)
Lemma empty_view_counterexample :
  (∃ w, widgets Example.stock_df_two = Ok w ∧ offered w Example.params_gap)
  ∧ (start_date Example.params_gap ≤ end_date Example.params_gap)%Z
  ∧ (∃ filtered, filter_stock Example.stock_df_two Example.params_gap = Ok filtered
                 ∧ rows filtered = [])
  ∧ page Example.stock_df_two Example.full_data_df Example.params_gap
    = mkPage [st_error no_data; st_error no_data] None.
Proof.
  split; [apply example_gap_offered|]. split; [by vm_compute|].
  split; [eexists; split; by vm_compute|by vm_compute].
Qed.



Lemma silent_drop_witness :
  ∃ df, @load_stock_df Reference.pandas Example.raw_prices = Ok df
      ∧ StronglySorted (date_le 0) (rows df)
      ∧ 0 ∈ (label <$> rows df)
      ∧ (1 ∉ (label <$> rows df))
      ∧ (3 ∉ (label <$> rows df)).
Proof.
  destruct (silent_drop (H := Reference.pandas) Example.raw_prices)
    as [Hstock _]; [apply example_well_formed|].
  destruct (Hstock 0 2) as (df & Hload & _ & Hsorted & Hkept); [done..|].
  assert (NoDup (label <$> rows Example.raw_prices)) as Hnodup.
  { apply (bool_decide_unpack _). by vm_compute. }
  exists df. split_and!; [done..| | |].
  - apply (Hkept Hnodup 0 _ _ _ eq_refl eq_refl eq_refl). by split.
  - intros Hin.
    apply (Hkept Hnodup 1 _ _ _ eq_refl eq_refl eq_refl) in Hin as [[? [=]] _].
  - intros Hin.
    apply (Hkept Hnodup 3 _ _ _ eq_refl eq_refl eq_refl) in Hin as [_ [? [=]]].
Defined.

Lemma header_matching_witness :
  (∃ df, @load_stock_df Reference.pandas Example.raw_prices = Ok df
       ∧ columns df = ["Date"; "Ticker"; "Adj Close"])
  ∧ (∃ df, @load_stock_df Reference.pandas Example.raw_prices_ticker = Ok df
         ∧ filter_stock df Example.params = Raise (KeyError "Ticker")).
Proof.
  split.
  - destruct (header_matching (H := Reference.pandas) Example.raw_prices
                ["Date"; "Ticker"; "Adj Close"]) as (_ & Hstock & _).
    + repeat constructor.
      * by exists " ", "".
      * by exists "", " ".
      * by exists " ", " ".
    + apply Hstock; [by exists 0|by exists 2].
  - destruct (header_matching (H := Reference.pandas) Example.raw_prices_ticker
                ["Date"; "ticker"; "Adj Close"])
      as (_ & _ & _ & _ & _ & Hticker & _).
    + repeat constructor; by exists "", "".
    + destruct Hticker as (df & Hdf & Hfilter); [by exists 0|by exists 2| |].
      * apply (bool_decide_unpack _). by vm_compute.
      * exists df. split; [done|]. apply Hfilter.
Defined.

(** Against C6 as stated: a price file whose first label is [date] has
    the canonical labels up to letter case, and the loader raises instead
    of matching it. *)
Lemma header_case_counterexample :
  lower <$> columns Example.raw_prices_lower
  = lower <$> ["Date"; "Ticker"; "Adj Close"]
  ∧ @load_stock_df Reference.pandas Example.raw_prices_lower
    = Raise (KeyError "Date").
Proof. split; by vm_compute. Qed.

(** The scenario of the specification on the example tables: January 1st
    to 2nd, ticker ABC, [baseline] against [svm].  Two price rows; one
    row flagged by [baseline], joined with the price 11; nothing flagged
    by [svm]; no overlap. *)
Example scenario_baseline_svm :
  ∃ v, computeView Example.stock_df Example.full_data_df Example.params
       = Rendered v
     ∧ label <$> rows (filtered_stock_df v) = [2; 0]
     ∧ cells <$> rows (model_1_merged v)
       = [[VTime (Timestamp (Example.day 2024 1 2)); VStr "ABC";
           VNum 1; VNum 0; VNum 1; VNum 11]]
     ∧ rows (model_2_merged v) = []
     ∧ rows (overlapping_merged v) = [].
Proof. eexists. split_and!; by vm_compute. Qed.

(** An unparseable date or price drops the row and nothing else. *)
Example scenario_not_a_date :
  label <$> rows Example.stock_df = [2; 0; 4].
Proof. reflexivity. Qed.
